(** * ppt_generator: theme resolution, theme selection and slide rendering

    A shallow embedding of the JavaScript of the React front end
    ([utils/theme-utils.js], [config/theme.jsx], [context/theme-context.jsx],
    [hooks/use-theme.js], [contexts/PresentationThemeContext.jsx],
    [components/Presentation.jsx]) and of the layout pipeline that the
    specification describes, with the properties the specification states
    about them. *)

From Stdlib Require Import String Ascii List ZArith Bool Arith Lia DecimalString.
From Stdlib Require Import QArith Qminmax Qround Lqa.
Import ListNotations.

Close Scope Q_scope.
Local Open Scope string_scope.
Local Open Scope list_scope.

(** ** JavaScript values

    The data of this program is what object literals and JSON responses
    produce: [undefined], [null], booleans, numbers (the source only
    writes small integer literals, so a number is a [Z]; NaN and
    fractions do not occur), strings, arrays and objects.  An object is
    the list of its own properties in insertion order; the first binding
    of a key is the one that counts.  [VHost] stands for an object of the
    host environment that a property read can reach through the
    prototype chain ([Object.prototype] and its methods): [callable]
    tells functions from the rest. *)

Module JS.

#[warnings="-register-all"]
Inductive value : Type :=
| VUndef
| VNull
| VBool (b : bool)
| VNum (n : Z)
| VStr (s : string)
| VArr (elems : list value)
| VObj (props : list (string * value))
| VHost (name : string) (callable : bool).

(** What a JavaScript operation can throw here. *)
Inductive error : Type :=
| TypeError_read (base : value) (key : string)
    (* Cannot read properties of undefined/null (reading 'key') *)
| TypeError_call (key : string).
    (* x.key is not a function *)

Inductive result (A : Type) : Type :=
| Ok (a : A)
| Throw (e : error).

Arguments Ok {A} a.
Arguments Throw {A} e.

Definition bind {A B : Type} (r : result A) (k : A -> result B) : result B :=
  match r with
  | Ok a => k a
  | Throw e => Throw e
  end.

Notation "x <- c ;; k" := (bind c (fun x => k))
  (at level 61, c at next level, right associativity).

Definition returns {A : Type} (r : result A) : bool :=
  match r with Ok _ => true | Throw _ => false end.

Definition throws {A : Type} (r : result A) : bool := negb (returns r).

(** [mapM f l] is [l.map(f)] when [f] can throw: left to right, the
    first exception aborts the whole call. *)
Fixpoint mapM {A B : Type} (f : A -> result B) (l : list A) : result (list B) :=
  match l with
  | [] => Ok []
  | a :: l' => b <- f a ;; bs <- mapM f l' ;; Ok (b :: bs)
  end.

(** *** Truthiness, [typeof], [||] *)

Definition truthy (v : value) : bool :=
  match v with
  | VUndef | VNull => false
  | VBool b => b
  | VNum n => negb (n =? 0)%Z
  | VStr s => negb (s =? EmptyString)
  | VArr _ | VObj _ | VHost _ _ => true
  end.

Definition typeof (v : value) : string :=
  match v with
  | VUndef => "undefined"
  | VNull => "object"
  | VBool _ => "boolean"
  | VNum _ => "number"
  | VStr _ => "string"
  | VArr _ | VObj _ => "object"
  | VHost _ c => if c then "function" else "object"
  end.

(** [a || b] *)
Definition or_else (a b : value) : value := if truthy a then a else b.

(** A parameter default [x = d] and a destructuring default apply
    exactly when the value is [undefined]. *)
Definition default_arg (x d : value) : value :=
  match x with VUndef => d | _ => x end.

(** *** Strings of numbers and of values *)

Definition string_of_Z (n : Z) : string :=
  NilZero.string_of_int (Z.to_int n).

Definition string_of_nat (n : nat) : string := string_of_Z (Z.of_nat n).

Fixpoint join (sep : string) (l : list string) : string :=
  match l with
  | [] => EmptyString
  | [s] => s
  | s :: l' => s ++ sep ++ join sep l'
  end.

(** [String(v)], as a template literal and a property key apply it,
    for the values on which that conversion returns.  On an object that
    carries a [toString] or [valueOf] of its own (such as
    [{toString: null}]) JavaScript calls that member or throws a
    TypeError; [convertible] below tells the values that are converted
    through the built-in members only. *)
Fixpoint to_string (v : value) : string :=
  match v with
  | VUndef => "undefined"
  | VNull => "null"
  | VBool b => if b then "true" else "false"
  | VNum n => string_of_Z n
  | VStr s => s
  | VArr l =>
      join "," (map (fun x => match x with
                              | VUndef | VNull => EmptyString
                              | _ => to_string x
                              end) l)
  | VObj _ => "[object Object]"
  | VHost n c => if c then "function " ++ n ++ "() { [native code] }"
                 else "[object Object]"
  end.

(** *** Own properties *)

Fixpoint assoc (k : string) (props : list (string * value)) : option value :=
  match props with
  | [] => None
  | (k', v) :: props' => if k' =? k then Some v else assoc k props'
  end.

(** [o.k = v] inside an object literal: an existing key keeps its place
    and takes the new value, a new key goes last. *)
Fixpoint set (k : string) (v : value) (props : list (string * value))
  : list (string * value) :=
  match props with
  | [] => [(k, v)]
  | (k', v') :: props' =>
      if k' =? k then (k, v) :: props' else (k', v') :: set k v props'
  end.

Definition chars (s : string) : list value :=
  map (fun c => VStr (String c EmptyString)) (list_ascii_of_string s).

Fixpoint indexed_from (i : nat) (l : list value) : list (string * value) :=
  match l with
  | [] => []
  | v :: l' => (string_of_nat i, v) :: indexed_from (S i) l'
  end.

(** The own enumerable properties, which is what [{...v}] and
    [Object.entries(v)] enumerate, in insertion order.  JavaScript lists
    integer-like keys of an object first, so for an object with such
    keys the order here is not that of JavaScript. *)
Definition own_enumerable (v : value) : list (string * value) :=
  match v with
  | VObj props => props
  | VArr l => indexed_from 0 l
  | VStr s => indexed_from 0 (chars s)
  | _ => []
  end.

(** The own properties a read can see: the enumerable ones and
    [length] of arrays and strings. *)
Definition own (v : value) (k : string) : option value :=
  match v with
  | VObj props => assoc k props
  | VArr l =>
      if k =? "length" then Some (VNum (Z.of_nat (length l)))
      else assoc k (indexed_from 0 l)
  | VStr s =>
      if k =? "length" then Some (VNum (Z.of_nat (String.length s)))
      else assoc k (indexed_from 0 (chars s))
  | _ => None
  end.

(** The values whose conversion to a string is certain to return, with
    [to_string v] as its result: [undefined], [null], booleans, strings,
    integers up to 2^53, arrays of such values, and objects that have
    neither [toString] nor [valueOf] among their own properties (they
    convert through [Object.prototype.toString]).  Host objects are left
    out. *)
Fixpoint convertible (v : value) : bool :=
  match v with
  | VUndef | VNull | VBool _ | VStr _ => true
  | VNum n => (Z.abs n <=? 9007199254740992)%Z
  | VArr l => forallb convertible l
  | VObj props =>
      match assoc "toString" props, assoc "valueOf" props with
      | None, None => true
      | _, _ => false
      end
  | VHost _ _ => false
  end.

(** *** The prototype chain

    Every object inherits the members of [Object.prototype]; they are
    all functions, except the accessor [__proto__], which yields the
    prototype of the receiver ([null] for [Object.prototype] itself).
    Members of [String.prototype], [Array.prototype] and
    [Function.prototype] are not listed: the only one the program
    uses, [map] of arrays, is [array_map] below. *)

Definition ObjectPrototype : value := VHost "Object.prototype" false.

Definition objectPrototypeMethods : list string :=
  [ "constructor"; "__defineGetter__"; "__defineSetter__"; "hasOwnProperty";
    "__lookupGetter__"; "__lookupSetter__"; "isPrototypeOf";
    "propertyIsEnumerable"; "toString"; "valueOf"; "toLocaleString" ].

Definition constructorOf (v : value) : string :=
  match v with
  | VBool _ => "Boolean"
  | VNum _ => "Number"
  | VStr _ => "String"
  | VArr _ => "Array"
  | VHost _ true => "Function"
  | _ => "Object"
  end.

Definition protoOf (v : value) : value :=
  match v with
  | VUndef | VNull => VUndef
  | VBool _ => VHost "Boolean.prototype" false
  | VNum _ => VHost "Number.prototype" false
  | VStr _ => VHost "String.prototype" false
  | VArr _ => VHost "Array.prototype" false
  | VObj _ => ObjectPrototype
  | VHost n c =>
      if n =? "Object.prototype" then VNull
      else if n =? "Function.prototype" then ObjectPrototype
      else if c then VHost "Function.prototype" true
      else ObjectPrototype
  end.

Definition inherited (v : value) (k : string) : value :=
  if k =? "__proto__" then protoOf v
  else if k =? "constructor" then VHost (constructorOf v) true
  else if existsb (String.eqb k) objectPrototypeMethods then VHost k true
  else VUndef.

Definition is_inherited_name (k : string) : bool :=
  (k =? "__proto__") || existsb (String.eqb k) objectPrototypeMethods.

(** [v[k]] and [v.k]: reading a property of [undefined] or [null]
    throws, a missing property reads as [undefined]. *)
Definition get (v : value) (k : string) : result value :=
  match v with
  | VUndef | VNull => Throw (TypeError_read v k)
  | _ => match own v k with
         | Some x => Ok x
         | None => Ok (inherited v k)
         end
  end.

Definition nullish (v : value) : bool :=
  match v with VUndef | VNull => true | _ => false end.

(** [v?.k] *)
Definition get_opt (v : value) (k : string) : result value :=
  match v with
  | VUndef | VNull => Ok VUndef
  | _ => get v k
  end.

(** [v[k]] with an arbitrary value as key, for a key that is
    [convertible]. *)
Definition get_at (v key : value) : result value := get v (to_string key).

(** [Object.entries(v)] *)
Definition entries (v : value) : result (list (string * value)) :=
  match v with
  | VUndef | VNull => Throw (TypeError_call "entries")
  | _ => Ok (own_enumerable v)
  end.

(** [s.split('.')]: the pieces between the dots; always at least one. *)
Fixpoint split_dots_aux (s acc : string) : list string :=
  match s with
  | EmptyString => [acc]
  | String c s' =>
      if Ascii.eqb c "."%char then acc :: split_dots_aux s' EmptyString
      else split_dots_aux s' (acc ++ String c EmptyString)
  end.

Definition split_dots (s : string) : list string := split_dots_aux s EmptyString.

End JS.

Import JS.

(** [v.a.b] *)
Definition get2 (v : value) (a b : string) : result value :=
  x <- get v a ;; get x b.

(** [v.map(f)]: only arrays carry [map]; the data of this program holds
    no function of its own, so on anything else the call fails. *)
Definition array_map (f : value -> result value) (v : value) : result value :=
  match v with
  | VUndef | VNull => Throw (TypeError_read v "map")
  | VArr l => l' <- mapM f l ;; Ok (VArr l')
  | _ => Throw (TypeError_call "map")
  end.

(** ** config/theme.jsx: the registered themes *)

Module Theme.

Definition sizes : value :=
  VObj [ ("title", VNum 44); ("subtitle", VNum 32);
         ("content", VNum 18); ("bullet", VNum 16) ].

Definition corporate_blue : value :=
  VObj [ ("id", VStr "corporate_blue");
         ("name", VStr "Corporate Blue");
         ("colors", VObj [ ("primary", VStr "#1a73e8");
                           ("secondary", VStr "#4285f4");
                           ("accent", VStr "#34a853");
                           ("background", VStr "#ffffff");
                           ("background_end", VStr "#f8f9fa");
                           ("text", VStr "#202124");
                           ("text_secondary", VStr "#5f6368");
                           ("text_light", VStr "#ffffff") ]);
         ("fonts", VObj [ ("title", VStr "Arial");
                          ("content", VStr "Roboto");
                          ("heading", VStr "Arial");
                          ("body", VStr "Roboto");
                          ("sizes", sizes) ]);
         ("gradient", VObj [ ("angle", VNum 135) ]);
         ("iconStyle", VStr "modern");
         ("layoutPreference", VStr "balanced") ].

Definition elegant_dark : value :=
  VObj [ ("id", VStr "elegant_dark");
         ("name", VStr "Elegant Dark");
         ("colors", VObj [ ("primary", VStr "#9333ea");
                           ("secondary", VStr "#6366f1");
                           ("accent", VStr "#ec4899");
                           ("background", VStr "#18181b");
                           ("background_end", VStr "#27272a");
                           ("text", VStr "#ffffff");
                           ("text_secondary", VStr "#a1a1aa");
                           ("text_light", VStr "#ffffff") ]);
         ("fonts", VObj [ ("title", VStr "Playfair Display");
                          ("content", VStr "Inter");
                          ("heading", VStr "Playfair Display");
                          ("body", VStr "Inter");
                          ("sizes", sizes) ]);
         ("gradient", VObj [ ("angle", VNum 135) ]);
         ("iconStyle", VStr "minimal");
         ("layoutPreference", VStr "balanced") ].

Definition nature_green : value :=
  VObj [ ("id", VStr "nature_green");
         ("name", VStr "Nature Green");
         ("colors", VObj [ ("primary", VStr "#059669");
                           ("secondary", VStr "#10b981");
                           ("accent", VStr "#34d399");
                           ("background", VStr "#f0fdf4");
                           ("background_end", VStr "#dcfce7");
                           ("text", VStr "#064e3b");
                           ("text_secondary", VStr "#059669");
                           ("text_light", VStr "#ffffff") ]);
         ("fonts", VObj [ ("title", VStr "Montserrat");
                          ("content", VStr "Source Sans Pro");
                          ("heading", VStr "Montserrat");
                          ("body", VStr "Source Sans Pro");
                          ("sizes", sizes) ]);
         ("gradient", VObj [ ("angle", VNum 120) ]);
         ("iconStyle", VStr "creative");
         ("layoutPreference", VStr "visual_focused") ].

Definition modern_gradient : value :=
  VObj [ ("id", VStr "modern_gradient");
         ("name", VStr "Modern Gradient");
         ("colors", VObj [ ("primary", VStr "#6366f1");
                           ("secondary", VStr "#8b5cf6");
                           ("accent", VStr "#ec4899");
                           ("background", VStr "#ffffff");
                           ("background_end", VStr "#f3f4f6");
                           ("text", VStr "#111827");
                           ("text_secondary", VStr "#4b5563");
                           ("text_light", VStr "#ffffff") ]);
         ("fonts", VObj [ ("title", VStr "Inter");
                          ("content", VStr "Inter");
                          ("heading", VStr "Inter");
                          ("body", VStr "Inter");
                          ("sizes", sizes) ]);
         ("gradient", VObj [ ("angle", VNum 145) ]);
         ("iconStyle", VStr "modern");
         ("layoutPreference", VStr "visual_focused");
         ("gradients",
          VObj [ ("primary",
                  VStr ("linear-gradient(" ++ to_string (VNum 145)
                        ++ "deg, #6366f1, #8b5cf6)"));
                 ("secondary",
                  VStr ("linear-gradient(" ++ to_string (VNum 145)
                        ++ "deg, #8b5cf6, #ec4899)"));
                 ("accent",
                  VStr ("linear-gradient(" ++ to_string (VNum 145)
                        ++ "deg, #ec4899, #6366f1)")) ]) ].

Definition defaultThemes : value :=
  VObj [ ("corporate_blue", corporate_blue);
         ("elegant_dark", elegant_dark);
         ("nature_green", nature_green);
         ("modern_gradient", modern_gradient) ].

(** The registered entries, by identifier. *)
Definition registered : list (string * value) := own_enumerable defaultThemes.

Definition is_registered (id : string) : bool :=
  existsb (fun e => fst e =? id) registered.

(** [linear-gradient(${angle}deg, ${a}, ${b})] *)
Definition linear_gradient (angle a b : value) : value :=
  VStr ("linear-gradient(" ++ to_string angle ++ "deg, " ++ to_string a
        ++ ", " ++ to_string b ++ ")").

(** [theme.gradients?.k || `linear-gradient(...)`] of [getThemeVariables]:
    the fallback is only evaluated when the left operand is falsy. *)
Definition gradient_or (theme : value) (k a b : string) : result value :=
  gs <- get theme "gradients" ;;
  g <- get_opt gs k ;;
  if truthy g then Ok g
  else
    angle <- get2 theme "gradient" "angle" ;;
    ca <- get2 theme "colors" a ;;
    cb <- get2 theme "colors" b ;;
    Ok (linear_gradient angle ca cb).

Definition getThemeVariables (theme : value) : result value :=
  primary <- get2 theme "colors" "primary" ;;
  secondary <- get2 theme "colors" "secondary" ;;
  accent <- get2 theme "colors" "accent" ;;
  background <- get2 theme "colors" "background" ;;
  background_end <- get2 theme "colors" "background_end" ;;
  text <- get2 theme "colors" "text" ;;
  text_secondary <- get2 theme "colors" "text_secondary" ;;
  text_light <- get2 theme "colors" "text_light" ;;
  angle <- get2 theme "gradient" "angle" ;;
  title <- get2 theme "fonts" "title" ;;
  content <- get2 theme "fonts" "content" ;;
  gp <- gradient_or theme "primary" "primary" "secondary" ;;
  gs <- gradient_or theme "secondary" "secondary" "accent" ;;
  ga <- gradient_or theme "accent" "accent" "primary" ;;
  Ok (VObj [ ("--theme-primary", primary);
             ("--theme-secondary", secondary);
             ("--theme-accent", accent);
             ("--theme-background", background);
             ("--theme-background-end", background_end);
             ("--theme-text", text);
             ("--theme-text-secondary", text_secondary);
             ("--theme-text-light", text_light);
             ("--theme-gradient-angle", VStr (to_string angle ++ "deg"));
             ("--theme-font-title", title);
             ("--theme-font-content", content);
             ("--theme-gradient-primary", gp);
             ("--theme-gradient-secondary", gs);
             ("--theme-gradient-accent", ga) ]).

End Theme.

(** ** utils/theme-utils.js *)

Module ThemeUtils.

(** The five entries of [slideTypes], in source order. *)
Definition slideTypeNames : list string :=
  [ "title"; "section"; "content"; "image"; "quote" ].

(** [generateSlideStyles(theme, type = 'default')].  The object literal
    [slideTypes] is built whole on every call, whatever [type] is, so
    every read below happens on every call, in this order. *)
Definition generateSlideStyles (theme type : value) : result value :=
  let type := default_arg type (VStr "default") in
  (* const baseStyles = { ... } *)
  background <- get2 theme "colors" "background" ;;
  color <- get2 theme "colors" "text" ;;
  fontFamily <- get2 theme "fonts" "body" ;;
  let baseStyles :=
    [ ("background", background); ("color", color);
      ("fontFamily", fontFamily) ] in
  (* title *)
  t_background <- get2 theme "gradients" "primary" ;;
  t_heading <- get2 theme "fonts" "heading" ;;
  let title :=
    VObj (set "& h1, & h2, & h3"
            (VObj [ ("fontFamily", t_heading); ("marginBottom", VStr "1.5rem") ])
         (set "color" (VStr "#ffffff")
         (set "background" t_background baseStyles))) in
  (* section *)
  s_background <- get2 theme "gradients" "secondary" ;;
  s_heading <- get2 theme "fonts" "heading" ;;
  let section :=
    VObj (set "& h1, & h2, & h3"
            (VObj [ ("fontFamily", s_heading); ("marginBottom", VStr "1rem") ])
         (set "color" (VStr "#ffffff")
         (set "background" s_background baseStyles))) in
  (* content *)
  c_primary <- get2 theme "colors" "primary" ;;
  c_heading <- get2 theme "fonts" "heading" ;;
  c_secondary <- get2 theme "colors" "secondary" ;;
  let content :=
    VObj (set "& li" (VObj [ ("marginBottom", VStr "0.5rem") ])
         (set "& ul, & ol"
            (VObj [ ("marginLeft", VStr "1.5rem"); ("marginBottom", VStr "1rem") ])
         (set "& strong" (VObj [ ("color", c_secondary) ])
         (set "& h1, & h2, & h3"
            (VObj [ ("color", c_primary); ("fontFamily", c_heading);
                    ("marginBottom", VStr "1rem") ])
          baseStyles)))) in
  (* image *)
  i_secondary <- get2 theme "colors" "secondary" ;;
  let image :=
    VObj (set "& figure"
            (VObj [ ("margin", VStr "1rem 0");
                    ("& img", VObj [ ("maxWidth", VStr "100%");
                                     ("height", VStr "auto");
                                     ("borderRadius", VStr "0.5rem") ]);
                    ("& figcaption", VObj [ ("marginTop", VStr "0.5rem");
                                            ("fontSize", VStr "0.875rem");
                                            ("color", i_secondary) ]) ])
          baseStyles) in
  (* quote *)
  q_background <- get2 theme "patterns" "dots" ;;
  q_primary <- get2 theme "colors" "primary" ;;
  q_secondary <- get2 theme "colors" "secondary" ;;
  let quote :=
    VObj (set "& blockquote"
            (VObj [ ("borderLeft", VStr ("4px solid " ++ to_string q_primary));
                    ("padding", VStr "1rem 0 1rem 1.5rem");
                    ("margin", VStr "1rem 0");
                    ("fontStyle", VStr "italic");
                    ("& cite", VObj [ ("display", VStr "block");
                                      ("marginTop", VStr "0.5rem");
                                      ("color", q_secondary);
                                      ("fontSize", VStr "0.875rem") ]) ])
         (set "background" q_background baseStyles)) in
  let slideTypes :=
    VObj [ ("title", title); ("section", section); ("content", content);
           ("image", image); ("quote", quote) ] in
  (* return slideTypes[type] || slideTypes.content *)
  chosen <- get_at slideTypes type ;;
  if truthy chosen then Ok chosen else get slideTypes "content".

(** [theme.group] is there to be read from. *)
Definition has_group (theme : value) (group : string) : bool :=
  match get theme group with
  | Ok g => negb (nullish g)
  | Throw _ => false
  end.

(** The groups [generateSlideStyles] reads from, in the order it first
    reads them. *)
Definition requiredGroups : list string :=
  [ "colors"; "fonts"; "gradients"; "patterns" ].

Definition generateTransitionStyles (theme : value) : value :=
  VObj [ ("fade",
          VObj [ ("enter", VObj [ ("opacity", VNum 0) ]);
                 ("enterActive",
                  VObj [ ("opacity", VNum 1);
                         ("transition", VStr "opacity 300ms ease-in-out") ]);
                 ("exit",
                  VObj [ ("opacity", VNum 0);
                         ("transition", VStr "opacity 300ms ease-in-out") ]) ]);
         ("slide",
          VObj [ ("enter", VObj [ ("transform", VStr "translateX(100%)") ]);
                 ("enterActive",
                  VObj [ ("transform", VStr "translateX(0)");
                         ("transition", VStr "transform 300ms ease-in-out") ]);
                 ("exit",
                  VObj [ ("transform", VStr "translateX(-100%)");
                         ("transition", VStr "transform 300ms ease-in-out") ]) ]);
         ("scale",
          VObj [ ("enter", VObj [ ("transform", VStr "scale(0.9)");
                                  ("opacity", VNum 0) ]);
                 ("enterActive",
                  VObj [ ("transform", VStr "scale(1)");
                         ("opacity", VNum 1);
                         ("transition", VStr "all 300ms ease-in-out") ]);
                 ("exit",
                  VObj [ ("transform", VStr "scale(0.9)");
                         ("opacity", VNum 0);
                         ("transition", VStr "all 300ms ease-in-out") ]) ]) ].

(** [applyThemeToSlide(slide, theme)] *)
Definition applyThemeToSlide (slide theme : value) : result value :=
  type <- get slide "type" ;;
  styles <- generateSlideStyles theme type ;;
  fade <- get (generateTransitionStyles theme) "fade" ;;
  Ok (VObj (set "transition" fade
           (set "styles" styles (own_enumerable slide)))).

(** [applyThemeToPresentation(presentation, theme)] *)
Definition applyThemeToPresentation (presentation theme : value)
  : result value :=
  slides0 <- get presentation "slides" ;;
  slides <- array_map (fun slide => applyThemeToSlide slide theme) slides0 ;;
  name <- get theme "name" ;;
  background <- get2 theme "colors" "background" ;;
  color <- get2 theme "colors" "text" ;;
  fontFamily <- get2 theme "fonts" "body" ;;
  Ok (VObj (set "styles"
              (VObj [ ("background", background); ("color", color);
                      ("fontFamily", fontFamily) ])
           (set "theme" name
           (set "slides" slides (own_enumerable presentation))))).

End ThemeUtils.

(** ** React state of the theme hooks

    Both theme hooks keep two state cells, [currentTheme] and
    [customTheme]; every callback is a function from the state before to
    the state after. *)

Record ThemeState : Type := mkThemeState {
  currentTheme : value;
  customTheme : value
}.

(** ** context/theme-context.jsx *)

Module ThemeContext.

Import Theme.

(** [useState('corporate_blue')], [useState(null)] *)
Definition initial : ThemeState :=
  mkThemeState (VStr "corporate_blue") VNull.

(** [customTheme || defaultThemes[currentTheme] || defaultThemes.corporate_blue] *)
Definition theme (st : ThemeState) : result value :=
  if truthy (customTheme st) then Ok (customTheme st)
  else
    byId <- get_at defaultThemes (currentTheme st) ;;
    if truthy byId then Ok byId else get defaultThemes "corporate_blue".

(** [switchTheme(themeId)] *)
Definition switchTheme (themeId : value) (st : ThemeState) : result ThemeState :=
  entry <- get_at defaultThemes themeId ;;
  if truthy entry then Ok (mkThemeState themeId VNull) else Ok st.

(** [setTheme(themeConfig)] *)
Definition setTheme (themeConfig : value) (st : ThemeState) : ThemeState :=
  if (typeof themeConfig =? "object")
     && negb (match themeConfig with VNull => true | _ => false end)
  then mkThemeState (currentTheme st) themeConfig
  else st.

(** [availableThemes]: [{...themeData, id}] for every entry. *)
Definition availableThemes : result (list value) :=
  es <- entries defaultThemes ;;
  Ok (map (fun e => VObj (set "id" (VStr (fst e)) (own_enumerable (snd e)))) es).

End ThemeContext.

(** ** hooks/use-theme.js *)

Module UseTheme.

Import Theme.

(** [useTheme(initialTheme = 'modern')] *)
Definition initial (initialTheme : value) : ThemeState :=
  mkThemeState (default_arg initialTheme (VStr "modern")) VNull.

(** [customTheme || defaultThemes[currentTheme]] *)
Definition theme (st : ThemeState) : result value :=
  if truthy (customTheme st) then Ok (customTheme st)
  else get_at defaultThemes (currentTheme st).

(** [switchTheme(themeName)] *)
Definition switchTheme (themeName : value) (st : ThemeState) : result ThemeState :=
  entry <- get_at defaultThemes themeName ;;
  if truthy entry then Ok (mkThemeState themeName VNull) else Ok st.

(** [{...a, ...b}] *)
Definition spread2 (a b : value) : value :=
  VObj (fold_left (fun acc e => set (fst e) (snd e) acc)
                  (own_enumerable b) (own_enumerable a)).

(** [updateCustomTheme(themeUpdates)] *)
Definition updateCustomTheme (themeUpdates : value) (st : ThemeState)
  : result ThemeState :=
  base <- (if truthy (customTheme st) then Ok (customTheme st)
           else get_at defaultThemes (currentTheme st)) ;;
  Ok (mkThemeState (currentTheme st) (spread2 base themeUpdates)).

(** The loop of [getThemeValue]: it leaves at the first [undefined]. *)
Fixpoint walk (v : value) (parts : list string) : result value :=
  match parts with
  | [] => Ok v
  | part :: rest =>
      match v with
      | VUndef => Ok v
      | _ => v' <- get v part ;; walk v' rest
      end
  end.

(** [getThemeValue(path)] over the active theme [theme]. *)
Definition getThemeValue (theme : value) (path : string) : result value :=
  walk theme (split_dots path).

End UseTheme.

(** ** contexts/PresentationThemeContext.jsx *)

Module PresentationThemeContext.

Definition layouts (titleBackground : value) (contentColor : string) : value :=
  VObj [ ("title", VObj [ ("background", titleBackground);
                          ("textColor", VStr "text-white") ]);
         ("content", VObj [ ("background",
                             VObj [ ("type", VStr "solid");
                                    ("color", VStr contentColor) ]);
                            ("textColor", VStr "text-gray-900") ]) ].

Definition modern : value :=
  VObj [ ("name", VStr "Modern");
         ("colors", VObj [ ("primary", VStr "rgb(37, 99, 235)");
                           ("secondary", VStr "rgb(79, 70, 229)");
                           ("accent", VStr "rgb(236, 72, 153)");
                           ("background", VStr "rgb(249, 250, 251)");
                           ("text", VStr "rgb(17, 24, 39)") ]);
         ("fonts", VObj [ ("heading", VStr "font-sans");
                          ("body", VStr "font-sans") ]);
         ("layouts",
          layouts (VObj [ ("type", VStr "gradient");
                          ("colors", VArr [ VStr "rgb(37, 99, 235)";
                                            VStr "rgb(79, 70, 229)" ]) ])
                  "rgb(249, 250, 251)") ].

Definition elegant : value :=
  VObj [ ("name", VStr "Elegant");
         ("colors", VObj [ ("primary", VStr "rgb(55, 65, 81)");
                           ("secondary", VStr "rgb(107, 114, 128)");
                           ("accent", VStr "rgb(234, 88, 12)");
                           ("background", VStr "rgb(255, 255, 255)");
                           ("text", VStr "rgb(17, 24, 39)") ]);
         ("fonts", VObj [ ("heading", VStr "font-serif");
                          ("body", VStr "font-serif") ]);
         ("layouts",
          layouts (VObj [ ("type", VStr "pattern");
                          ("color", VStr "rgb(55, 65, 81)") ])
                  "rgb(255, 255, 255)") ].

Definition vibrant : value :=
  VObj [ ("name", VStr "Vibrant");
         ("colors", VObj [ ("primary", VStr "rgb(236, 72, 153)");
                           ("secondary", VStr "rgb(217, 70, 239)");
                           ("accent", VStr "rgb(139, 92, 246)");
                           ("background", VStr "rgb(255, 255, 255)");
                           ("text", VStr "rgb(17, 24, 39)") ]);
         ("fonts", VObj [ ("heading", VStr "font-sans");
                          ("body", VStr "font-sans") ]);
         ("layouts",
          layouts (VObj [ ("type", VStr "gradient");
                          ("colors", VArr [ VStr "rgb(236, 72, 153)";
                                            VStr "rgb(139, 92, 246)" ]) ])
                  "rgb(255, 255, 255)") ].

Definition themes : value :=
  VObj [ ("modern", modern); ("elegant", elegant); ("vibrant", vibrant) ].

(** The provider keeps the theme object itself: [useState(themes.modern)]. *)
Definition initial : result value := get themes "modern".

(** React's state setter, [setCurrentTheme(x)]: a value is stored as the
    new state, but a function is called as an updater, [x(prev)], and
    its result is stored.  The only functions that [themes[themeName]]
    can be are the built-in ones an object literal inherits.  Of their
    calls, that of the constructor [Object] is modelled where its result
    is a value of this model: [Object(prev)] is [prev] for an object and
    a new empty object for [undefined] and [null].  Every other call of
    a built-in function as an updater is outside the model: [None]. *)
Definition setState (x prev : value) : option (result value) :=
  match x with
  | VHost name true =>
      if name =? "Object" then
        match prev with
        | VUndef | VNull => Some (Ok (VObj []))
        | VArr _ | VObj _ | VHost _ _ => Some (Ok prev)
        | VBool _ | VNum _ | VStr _ => None
        end
      else None
  | _ => Some (Ok x)
  end.

(** [setTheme(themeName)]: the theme after the call, or [None] where
    [setState] is outside the model. *)
Definition setTheme (themeName : value) (current : value)
  : option (result value) :=
  match get_at themes themeName with
  | Ok newTheme =>
      if truthy newTheme then setState newTheme current else Some (Ok current)
  | Throw e => Some (Throw e)
  end.

End PresentationThemeContext.

(** ** components/Presentation.jsx *)

Module Presentation.

Definition CustomTheme : value :=
  VObj [ ("colors", VObj [ ("primary", VStr "rgb(37, 99, 235)");
                           ("secondary", VStr "rgb(79, 70, 229)");
                           ("accent", VStr "rgb(236, 72, 153)");
                           ("background", VStr "rgb(249, 250, 251)");
                           ("text", VStr "rgb(17, 24, 39)") ]);
         ("fonts", VObj [ ("heading", VStr "font-sans");
                          ("body", VStr "font-sans") ]) ].

(** [{title && (<h2 className=...>{title}</h2>)}]: the heading when
    [title] is truthy, the falsy value itself otherwise. *)
Inductive child : Type :=
| H2 (classes : list string) (text : value)
| Raw (v : value).

(** The [<section>] that [renderSlide] returns.  A [className] built by
    a multi-line template literal is kept as the list of its pieces, the
    white space between them dropped. *)
Record SectionEl : Type := mkSection {
  key : nat;
  dataSlideType : value;
  className : string;
  style : value;
  contentClassName : string;
  heading : child;
  bodyClasses : list string;
  body : value
}.

(** [x === 'literal'] *)
Definition is_str (x : value) (s : string) : bool :=
  match x with VStr s' => s' =? s | _ => false end.

Definition titleLayout : string := "flex flex-col justify-center items-center h-full".
Definition splitLayout : string := "grid grid-cols-2 gap-8 h-full".
Definition defaultLayout : string := "flex flex-col h-full".

(** [getLayoutClasses], a [switch] on [layout]. *)
Definition getLayoutClasses (layout : value) : string :=
  if is_str layout "title" then titleLayout
  else if is_str layout "split" then splitLayout
  else if is_str layout "image-left" then splitLayout
  else defaultLayout.

(** [renderSlide(slide, index)] *)
Definition renderSlide (slide : value) (index : nat) : result SectionEl :=
  (* const { type = 'standard', title, content, background,
             layout = 'default' } = slide; *)
  type0 <- get slide "type" ;;
  let type := default_arg type0 (VStr "standard") in
  title <- get slide "title" ;;
  content <- get slide "content" ;;
  background <- get slide "background" ;;
  layout0 <- get slide "layout" ;;
  let layout := default_arg layout0 (VStr "default") in
  (* const slideStyle = { ... } *)
  img <- get_opt background "image" ;;
  backgroundImage <-
    (if truthy img then
       img' <- get background "image" ;;
       Ok (VStr ("url(" ++ to_string img' ++ ")"))
     else Ok VUndef) ;;
  col <- get_opt background "color" ;;
  backgroundColor <-
    (if truthy col then Ok col else get2 CustomTheme "colors" "background") ;;
  let slideStyle :=
    VObj [ ("backgroundImage", backgroundImage);
           ("backgroundColor", backgroundColor);
           ("backgroundSize", VStr "cover");
           ("backgroundPosition", VStr "center");
           ("height", VStr "100%");
           ("width", VStr "100%");
           ("scrollSnapAlign", VStr "start") ] in
  (* the <h2>, only when title is truthy *)
  h <- (if truthy title then
          hf <- get2 CustomTheme "fonts" "heading" ;;
          img2 <- get_opt background "image" ;;
          Ok (H2 [ to_string hf;
                   "text-4xl md:text-6xl font-bold mb-8";
                   (if is_str type "title" then "text-center" else EmptyString);
                   (if truthy img2 then "text-white drop-shadow-lg"
                    else "text-gray-900") ]
                 title)
        else Ok (Raw title)) ;;
  bf <- get2 CustomTheme "fonts" "body" ;;
  img3 <- get_opt background "image" ;;
  Ok (mkSection index type "slide relative" slideStyle
        ("slide-content p-12 " ++ getLayoutClasses layout)
        h
        [ "slide-body"; to_string bf; "prose prose-lg max-w-none";
          (if truthy img3 then "text-white prose-invert" else "text-gray-700") ]
        content).

(** The same section under another React key. *)
Definition setKey (i : nat) (el : SectionEl) : SectionEl :=
  mkSection i (dataSlideType el) (className el) (style el)
            (contentClassName el) (heading el) (bodyClasses el) (body el).

(** The only title (hero) treatment the renderer has: the type tag
    ['title'] or the centred ['title'] layout. *)
Definition heroLike (el : SectionEl) : bool :=
  is_str (dataSlideType el) "title"
  || (contentClassName el =? "slide-content p-12 " ++ titleLayout).

Fixpoint mapiM {B : Type} (f : value -> nat -> result B) (i : nat)
  (l : list value) : result (list B) :=
  match l with
  | [] => Ok []
  | a :: l' => b <- f a i ;; bs <- mapiM f (S i) l' ;; Ok (b :: bs)
  end.

(** [Presentation({ slides = [] })]: one section per slide, in order. *)
Definition Presentation (slides : value) : result (list SectionEl) :=
  match default_arg slides (VArr []) with
  | VNull => Throw (TypeError_read VNull "map")
  | VArr l => mapiM renderSlide 0 l
  | _ => Throw (TypeError_call "map")
  end.

End Presentation.

(** * The layout pipeline of the specification

    The front end above has no layout classifier, variety enforcer or
    fit validator; the specification describes them (sections 3, 4.2,
    4.3 and 4.5).  They are modelled here from its words.  What the
    specification leaves open is a field of [Heuristics], and every
    theorem about the pipeline holds for all of them. *)

Module Pipeline.

(** Modelled from the spec: the data model of section 3
    ([SlideDescriptor], [LayoutClassification]); no such types exist in
    the front-end source. *)
Inductive Kind : Type :=
| K_title | K_content | K_split | K_grid | K_timeline | K_quote | K_image.

Inductive BlockKind : Type := B_text | B_bullets | B_image | B_stat.

Record Block : Type := mkBlock {
  blockKind : BlockKind;
  blockValue : string
}.

Inductive BackgroundMode : Type := M_solid | M_gradient | M_image | M_pattern.

Record SlideDescriptor : Type := mkDescriptor {
  index : nat;
  kind : Kind;
  headline : option string;
  subtitle : option string;
  bodyBlocks : list Block;
  backgroundMode : BackgroundMode;
  backgroundValue : string;
  accentColorToken : string;
  forceHero : bool
}.

Inductive Family : Type :=
| hero | twoColumn | cards | timeline | quoteBlock | imageFeature | plain.

Record LayoutClassification : Type := mkClassification {
  isPlain : bool;
  family : Family
}.

(** Modelled from the spec: the input of the enforcer (4.3, "paired with
    their descriptors"), a classification with its descriptor. *)
Definition Classified : Type := (SlideDescriptor * LayoutClassification)%type.

Definition family_eqb (a b : Family) : bool :=
  match a, b with
  | hero, hero | twoColumn, twoColumn | cards, cards | timeline, timeline
  | quoteBlock, quoteBlock | imageFeature, imageFeature | plain, plain => true
  | _, _ => false
  end.

Definition blockKind_eqb (a b : BlockKind) : bool :=
  match a, b with
  | B_text, B_text | B_bullets, B_bullets | B_image, B_image
  | B_stat, B_stat => true
  | _, _ => false
  end.

(** Modelled from the spec: what sections 4.2 and 4.3 name without
    defining it.  [isShort]: "short text"; [isQuoted]: "wrapped in
    quotation markers"; [hasMarker]: "ordinal/date markers";
    [roughlyEqual]: "roughly-equal-length"; [richness]: how rich the
    subtitle and body of a slide are; [synthesize]: the layout content a
    redesigned slide gains (4.3 step 5); [exemptHero]: whether a slide
    whose family is hero is left out of the plain count, as the scenario
    of section 8 has it, or counted like any slide flagged [isPlain], as
    step 1 of 4.3 reads. *)
Record Heuristics : Type := mkHeuristics {
  isShort : string -> bool;
  isQuoted : string -> bool;
  hasMarker : string -> bool;
  roughlyEqual : nat -> nat -> bool;
  richness : SlideDescriptor -> nat;
  synthesize : Family -> SlideDescriptor -> SlideDescriptor;
  exemptHero : bool
}.

Section Stages.

Variable h : Heuristics.

(** *** Layout Classifier (4.2) *)

Definition is_text (b : Block) : bool := blockKind_eqb (blockKind b) B_text.
Definition is_image (b : Block) : bool := blockKind_eqb (blockKind b) B_image.

Definition opt_string_eqb (o : option string) (s : string) : bool :=
  match o with Some s' => s' =? s | None => false end.

(** Modelled from the spec: [isPlain] of section 3, "true iff
    background.mode = solid, bodyBlocks is empty or contains only the
    headline/subtitle, and no split/grid/timeline visual structure is
    present". *)
Definition isPlainOf (d : SlideDescriptor) : bool :=
  match backgroundMode d with M_solid => true | _ => false end
  && forallb (fun b => opt_string_eqb (headline d) (blockValue b)
                       || opt_string_eqb (subtitle d) (blockValue b))
             (bodyBlocks d)
  && match kind d with
     | K_split | K_grid | K_timeline => false
     | _ => true
     end.

(** Modelled from the spec: the structural signals of 4.2 step 2, one
    per family: index 0 or [forceHero]; exactly one image block paired
    with text; at least two blocks that are a stat or a short text; body
    blocks that carry markers; a sole text block in quotation markers;
    two text blocks of roughly equal length. *)
Definition sig_hero (d : SlideDescriptor) : bool :=
  (index d =? 0)%nat || forceHero d.

Definition sig_imageFeature (d : SlideDescriptor) : bool :=
  (length (filter is_image (bodyBlocks d)) =? 1)%nat
  && existsb is_text (bodyBlocks d).

Definition sig_cards (d : SlideDescriptor) : bool :=
  (2 <=? length (filter (fun b => blockKind_eqb (blockKind b) B_stat
                                  || (is_text b && isShort h (blockValue b)))
                        (bodyBlocks d)))%nat.

Definition sig_timeline (d : SlideDescriptor) : bool :=
  negb (match bodyBlocks d with [] => true | _ => false end)
  && forallb (fun b => hasMarker h (blockValue b)) (bodyBlocks d).

Definition sig_quoteBlock (d : SlideDescriptor) : bool :=
  match bodyBlocks d with
  | [b] => is_text b && isQuoted h (blockValue b)
  | _ => false
  end.

Definition sig_twoColumn (d : SlideDescriptor) : bool :=
  match filter is_text (bodyBlocks d) with
  | [a; b] => roughlyEqual h (String.length (blockValue a))
                             (String.length (blockValue b))
  | _ => false
  end.

(** Modelled from the spec: family inference of 4.2 steps 2 and 3; the
    order of the tests is the tie-break order hero > imageFeature >
    cards > timeline > quoteBlock > twoColumn > plain. *)
Definition inferFamily (d : SlideDescriptor) : Family :=
  if sig_hero d then hero
  else if sig_imageFeature d then imageFeature
  else if sig_cards d then cards
  else if sig_timeline d then timeline
  else if sig_quoteBlock d then quoteBlock
  else if sig_twoColumn d then twoColumn
  else plain.

Definition classify (d : SlideDescriptor) : Classified :=
  (d, mkClassification (isPlainOf d) (inferFamily d)).

Definition classifyDeck (deck : list SlideDescriptor) : list Classified :=
  map classify deck.

(** *** Variety Enforcement Engine (4.3) *)

(** Modelled from the spec: step 1 of 4.3, the slides that count as
    plain: those flagged [isPlain], a slide of the hero family left out
    when [exemptHero] says so; [plainIndices] lists their positions. *)
Definition flagged (c : LayoutClassification) : bool :=
  isPlain c && negb (exemptHero h && family_eqb (family c) hero).

Fixpoint plainIndicesFrom (i : nat) (deck : list Classified) : list nat :=
  match deck with
  | [] => []
  | (_, c) :: rest =>
      if flagged c then i :: plainIndicesFrom (S i) rest
      else plainIndicesFrom (S i) rest
  end.

Definition plainIndices (deck : list Classified) : list nat :=
  plainIndicesFrom 0 deck.

(** Modelled from the spec: step 3 of 4.3, the plain slide to keep,
    with its richness: the richest one, and among equally rich ones the
    lowest index. *)
Fixpoint keptFrom (i : nat) (deck : list Classified) : option (nat * nat) :=
  match deck with
  | [] => None
  | (d, c) :: rest =>
      let later := keptFrom (S i) rest in
      if flagged c then
        match later with
        | Some (j, rj) =>
            if (richness h d <? rj)%nat then Some (j, rj)
            else Some (i, richness h d)
        | None => Some (i, richness h d)
        end
      else later
  end.

Definition kept (deck : list Classified) : option nat :=
  option_map fst (keptFrom 0 deck).

(** Modelled from the spec: step 4 of 4.3, the replacement families in
    round-robin order. *)
Definition candidates : list Family :=
  [ twoColumn; cards; timeline; quoteBlock; imageFeature ].

Definition candidate (slot : nat) : Family :=
  nth (slot mod 5) candidates twoColumn.

Definition blocked (neighbour : option Family) (f : Family) : bool :=
  match neighbour with Some g => family_eqb g f | None => false end.

(** Modelled from the spec: the adjacency rule of step 4, the first of
    the [tries] slots from [slot] on whose family neither neighbour
    uses. *)
Fixpoint firstFree (tries slot : nat) (prev next : option Family)
  : option nat :=
  match tries with
  | O => None
  | S tries' =>
      if blocked prev (candidate slot) || blocked next (candidate slot)
      then firstFree tries' (S slot) prev next
      else Some slot
  end.

(** Modelled from the spec: the family for one redesigned slide and
    the slot the round robin continues from; when all five are blocked
    the slot at hand is taken regardless (step 4). *)
Definition pickFamily (slot : nat) (prev next : option Family) : Family * nat :=
  match firstFree 5 slot prev next with
  | Some s => (candidate s, S s mod 5)
  | None => (candidate slot, S slot mod 5)
  end.

(** Modelled from the spec: steps 4 and 5 over the deck, in deck order.
    [i] is the position of the head of [deck], [prev] the family the
    slide before it ended with; the slide after it counts with the
    family it has when its neighbour is redesigned. *)
Fixpoint redesign (keep i slot : nat) (prev : option Family)
  (deck : list Classified) : list Classified :=
  match deck with
  | [] => []
  | (d, c) :: rest =>
      if flagged c && negb (i =? keep)%nat then
        let next := option_map (fun s => family (snd s)) (hd_error rest) in
        let (f, slot') := pickFamily slot prev next in
        (synthesize h f d, mkClassification false f)
          :: redesign keep (S i) slot' (Some f) rest
      else
        (d, c) :: redesign keep (S i) slot (Some (family c)) rest
  end.

(** Modelled from the spec: the Variety Enforcement Engine of section
    4.3, which is not in the front-end source.  Step 2 returns a deck
    with at most one plain slide unchanged; otherwise one slide is kept
    and every other flagged slide is redesigned, which gives it a
    replacement family and its synthesized content.  A redesigned slide
    is no longer flagged plain: an enforced deck is one that "already
    satisfies" the constraint (section 8). *)
Definition enforce (deck : list Classified) : list Classified :=
  if (length (plainIndices deck) <=? 1)%nat then deck
  else match kept deck with
       | Some keep => redesign keep 0 0 None deck
       | None => deck
       end.

(** Modelled from the spec: [count(family == plain)] of section 8, and
    the number of plain-family slides that are not flagged [isPlain]. *)
Definition plainCount (deck : list Classified) : nat :=
  length (filter (fun s => family_eqb (family (snd s)) plain) deck).

Definition unflaggedPlainCount (deck : list Classified) : nat :=
  length (filter (fun s => family_eqb (family (snd s)) plain
                           && negb (isPlain (snd s))) deck).

End Stages.

End Pipeline.

(** ** Fit Validator (section 4.5) *)

Module FitValidator.

Local Open Scope Q_scope.

(** Modelled from the spec: [ResolvedSlide] and [FitReport] of section
    3; the front-end source has neither.  A layout block is a
    positioned content region: its bounding box in fractions of the
    slide, and the text length and font size its height is estimated
    from. *)
Record Box : Type := mkBox {
  left : Q;
  top : Q;
  width : Q;
  height : Q
}.

Inductive Role : Type := R_headline | R_subtitle | R_body.

Record LayoutBlock : Type := mkLayoutBlock {
  blockId : nat;
  role : Role;
  textLength : nat;
  fontSize : Q;
  box : Box
}.

Record ResolvedSlide : Type := mkResolved {
  family : Pipeline.Family;
  styleProps : list (string * string);
  layoutBlocks : list LayoutBlock
}.

Record FitReport : Type := mkReport {
  overflowing : bool;
  overlappingPairs : list (nat * nat);
  appliedShrinkFactor : Q
}.

Inductive Axis : Type := Horizontal | Vertical.

(** Modelled from the spec: what section 4.5 names without fixing it.
    [estimate]: the "size-estimate function of text length and assigned
    font size"; [factor] and [floor]: the shrink decrement and its floor
    ("e.g. 0.95x", "e.g. 0.6x"); [truncate]: how the lowest-priority
    body block is cut; [epsilon]: the negligible intersection;
    [layoutAxis], [nudgeStep], [maxNudges]: the axis a box is nudged
    along, by how much, and the number of attempts. *)
Record FitConfig : Type := mkConfig {
  estimate : nat -> Q -> Q;
  factor : Q;
  floor : Q;
  truncate : LayoutBlock -> LayoutBlock;
  epsilon : Q;
  layoutAxis : Pipeline.Family -> Axis;
  nudgeStep : Q;
  maxNudges : nat
}.

(** The decrement really shrinks and the floor is a positive scale not
    above the initial one. *)
Definition valid (cfg : FitConfig) : Prop :=
  0 < factor cfg /\ factor cfg < 1 /\ 0 < floor cfg /\ floor cfg <= 1.

(** What the instrumented run counts. *)
Record Trace : Type := mkTrace {
  shrinkSteps : nat;
  nudgeAttempts : nat
}.

Section Validator.

Variable cfg : FitConfig.

(** *** Height and the shrink loop *)

(** Modelled from the spec: the "total estimated rendered height of
    stacked blocks" at font scale [scale], the slide height being 1. *)
Fixpoint estimatedHeight (blocks : list LayoutBlock) (scale : Q) : Q :=
  match blocks with
  | [] => 0
  | b :: rest =>
      estimate cfg (textLength b) (fontSize b * scale)
      + estimatedHeight rest scale
  end.

Definition fits (blocks : list LayoutBlock) (scale : Q) : bool :=
  Qle_bool (estimatedHeight blocks scale) 1.

(** Modelled from the spec: the shrink loop, "reduce font-size scale by
    fixed decrements up to a floor and re-measure; stop at first fit or
    at floor".  The result is the scale, whether the blocks fit at it,
    and the number of reductions; [None] when [fuel] iterations were not
    enough. *)
Fixpoint shrinkLoop (fuel : nat) (blocks : list LayoutBlock) (scale : Q)
  (steps : nat) : option (Q * bool * nat) :=
  if fits blocks scale then Some (scale, true, steps)
  else if Qle_bool scale (floor cfg) then Some (scale, false, steps)
  else match fuel with
       | O => None
       | S fuel' =>
           shrinkLoop fuel' blocks (Qmax (floor cfg) (scale * factor cfg))
                      (S steps)
       end.

(** Every reduction above the floor lowers the scale by at least
    [delta], so [shrinkBound] reductions reach the floor. *)
Definition delta : Q := floor cfg * (1 - factor cfg).

Definition shrinkBound : nat :=
  Z.to_nat (Qceiling ((1 - floor cfg) / delta)).

(** *** Truncation *)

Definition is_body (b : LayoutBlock) : bool :=
  match role b with R_body => true | _ => false end.

Definition body (blocks : list LayoutBlock) : list LayoutBlock :=
  filter is_body blocks.

(** Modelled from the spec: "truncate the lowest-priority body block",
    the last one; [None] when there is no body block. *)
Fixpoint truncateLast (blocks : list LayoutBlock) : option (list LayoutBlock) :=
  match blocks with
  | [] => None
  | b :: rest =>
      match truncateLast rest with
      | Some rest' => Some (b :: rest')
      | None => if is_body b then Some (truncate cfg b :: rest) else None
      end
  end.

(** *** Overlap detection and nudging *)

Definition positioned (f : Pipeline.Family) : bool :=
  match f with
  | Pipeline.cards | Pipeline.twoColumn | Pipeline.imageFeature => true
  | _ => false
  end.

(** Modelled from the spec: two bounding boxes "intersect by more than
    a negligible epsilon", in both directions. *)
Definition intersects (a b : Box) : bool :=
  negb (Qle_bool (Qmin (left a + width a) (left b + width b)
                  - Qmax (left a) (left b)) (epsilon cfg))
  && negb (Qle_bool (Qmin (top a + height a) (top b + height b)
                     - Qmax (top a) (top b)) (epsilon cfg)).

Definition nudge (axis : Axis) (b : Box) : Box :=
  match axis with
  | Horizontal => mkBox (left b + nudgeStep cfg) (top b) (width b) (height b)
  | Vertical => mkBox (left b) (top b + nudgeStep cfg) (width b) (height b)
  end.

(** Modelled from the spec: nudging the later-declared box [b] away
    from [a] "until clear, up to a bounded number of nudge attempts":
    the box reached, whether it is clear, and the attempts made. *)
Fixpoint nudgeLoop (attempts : nat) (axis : Axis) (a b : Box) (used : nat)
  : Box * bool * nat :=
  if negb (intersects a b) then (b, true, used)
  else match attempts with
       | O => (b, false, used)
       | S attempts' => nudgeLoop attempts' axis a (nudge axis b) (S used)
       end.

(** Modelled from the spec: overlap detection for one block, checked
    against each earlier one in turn; an intersecting pair is recorded
    and the later-declared box nudged. *)
Fixpoint settle (axis : Axis) (earlier : list LayoutBlock) (b : LayoutBlock)
  : LayoutBlock * list (nat * nat) * nat :=
  match earlier with
  | [] => (b, [], O)
  | a :: rest =>
      if intersects (box a) (box b) then
        let '(bx, _, used) := nudgeLoop (maxNudges cfg) axis (box a) (box b) O in
        let b' := mkLayoutBlock (blockId b) (role b) (textLength b)
                                (fontSize b) bx in
        let '(b'', pairs, n) := settle axis rest b' in
        (b'', (blockId a, blockId b) :: pairs, (used + n)%nat)
      else settle axis rest b
  end.

(** Modelled from the spec: overlap detection over all blocks in
    declaration order; [placed] are the ones already checked. *)
Fixpoint resolveOverlaps (axis : Axis) (placed todo : list LayoutBlock)
  : list LayoutBlock * list (nat * nat) * nat :=
  match todo with
  | [] => (placed, [], O)
  | b :: rest =>
      let '(b', pairs, n) := settle axis placed b in
      let '(blocks, pairs', n') := resolveOverlaps axis (placed ++ [b']) rest in
      (blocks, pairs ++ pairs', (n + n')%nat)
  end.

Definition scaleFonts (scale : Q) (blocks : list LayoutBlock) : list LayoutBlock :=
  map (fun b => mkLayoutBlock (blockId b) (role b) (textLength b)
                              (fontSize b * scale) (box b)) blocks.

(** Modelled from the spec: the Fit Validator of section 4.5, which is
    not in the front-end source.  The shrink loop runs from scale 1; if
    the blocks still overflow at the floor the last body block is cut
    and the height measured again, and [overflowing] is recorded only
    there, when the cut did not help: without a body block nothing is
    cut and nothing recorded (section 8).  Families with positioned
    regions then have their boxes checked pairwise.  [None] means the
    shrink loop ran out of [fuel]. *)
Definition run (fuel : nat) (slide : ResolvedSlide)
  : option (ResolvedSlide * FitReport * Trace) :=
  match shrinkLoop fuel (layoutBlocks slide) 1 O with
  | None => None
  | Some (scale, fit, steps) =>
      let '(blocks, overflow) :=
        if fit then (layoutBlocks slide, false)
        else match truncateLast (layoutBlocks slide) with
             | Some blocks' => (blocks', negb (fits blocks' scale))
             | None => (layoutBlocks slide, false)
             end in
      let '(blocks', pairs, nudges) :=
        if positioned (family slide)
        then resolveOverlaps (layoutAxis cfg (family slide)) [] blocks
        else (blocks, [], O) in
      Some (mkResolved (family slide) (styleProps slide) (scaleFonts scale blocks'),
            mkReport overflow pairs scale,
            mkTrace steps nudges)
  end.

(** Modelled from the spec: the validator's contract, one
    [ResolvedSlide] to [(ResolvedSlide, FitReport)], run with the fuel
    that always suffices. *)
Definition validate (slide : ResolvedSlide) : option (ResolvedSlide * FitReport) :=
  option_map fst (run shrinkBound slide).

(** The number of pairs of [n] blocks. *)
Fixpoint pairCount (n : nat) : nat :=
  match n with
  | O => O
  | S m => (m + pairCount m)%nat
  end.

End Validator.

End FitValidator.

(** ** Concrete inputs used by the examples below *)

Module Examples.

(** A theme that has every group [generateSlideStyles] reads: the
    registered [modern_gradient] entry plus a [patterns] group. *)
Definition completeTheme : value :=
  UseTheme.spread2 Theme.modern_gradient
    (VObj [ ("patterns",
             VObj [ ("dots", VStr "radial-gradient(#e5e7eb 1px, transparent 1px)") ]) ]).

(** The registered [corporate_blue] colours without [accent]. *)
Definition noAccent : value :=
  VObj [ ("id", VStr "no_accent");
         ("name", VStr "No Accent");
         ("colors", VObj [ ("primary", VStr "#1a73e8");
                           ("secondary", VStr "#4285f4");
                           ("background", VStr "#ffffff");
                           ("background_end", VStr "#f8f9fa");
                           ("text", VStr "#202124");
                           ("text_secondary", VStr "#5f6368");
                           ("text_light", VStr "#ffffff") ]);
         ("fonts", VObj [ ("title", VStr "Arial");
                          ("content", VStr "Roboto");
                          ("heading", VStr "Arial");
                          ("body", VStr "Roboto") ]);
         ("gradient", VObj [ ("angle", VNum 135) ]) ].

Definition introSlide : value :=
  VObj [ ("type", VStr "content"); ("title", VStr "Introduction");
         ("content", VStr "Why this matters") ].

(** A slide record with no [type] and no [layout]. *)
Definition untypedSlide : value :=
  VObj [ ("title", VStr "Welcome"); ("content", VStr "Hello") ].

Definition deck : value :=
  VObj [ ("title", VStr "Demo"); ("slides", VArr [ introSlide; untypedSlide ]) ].

(** Heuristics for the pipeline examples: a text of at most 40
    characters is short, a quotation starts with a double quote, a
    marker with a digit, two lengths are roughly equal when neither is
    more than twice the other, richness is the amount of subtitle and
    body text, nothing is synthesized. *)
Definition heuristicsWith (exempt : bool) : Pipeline.Heuristics :=
  Pipeline.mkHeuristics
    (fun s => (String.length s <=? 40)%nat)
    (fun s => match s with
              | String c _ => Ascii.eqb c (ascii_of_nat 34)
              | EmptyString => false
              end)
    (fun s => match s with
              | String c _ => (48 <=? nat_of_ascii c)%nat && (nat_of_ascii c <=? 57)%nat
              | EmptyString => false
              end)
    (fun a b => ((a <=? 2 * b) && (b <=? 2 * a))%nat)
    (fun d => (match Pipeline.subtitle d with
               | Some s => String.length s
               | None => 0
               end
               + list_sum (map (fun b => String.length (Pipeline.blockValue b))
                               (Pipeline.bodyBlocks d)))%nat)
    (fun _ d => d)
    exempt.

(** Solid background, a headline and nothing else. *)
Definition headlineOnly (i : nat) : Pipeline.SlideDescriptor :=
  Pipeline.mkDescriptor i Pipeline.K_content (Some "Heading") None []
    Pipeline.M_solid "#ffffff" "accent" (i =? 0)%nat.

(** The same on a gradient background. *)
Definition headlineOnGradient (i : nat) : Pipeline.SlideDescriptor :=
  Pipeline.mkDescriptor i Pipeline.K_content (Some "Heading") None []
    Pipeline.M_gradient "primary-secondary" "accent" (i =? 0)%nat.

(** A headline over one paragraph. *)
Definition paragraph (i : nat) : Pipeline.SlideDescriptor :=
  Pipeline.mkDescriptor i Pipeline.K_content (Some "Heading") None
    [ Pipeline.mkBlock Pipeline.B_text
        "Over the last year the programme has grown from a pilot into a service used every day." ]
    Pipeline.M_solid "#ffffff" "accent" (i =? 0)%nat.

(** Two statistics. *)
Definition statistics (i : nat) : Pipeline.SlideDescriptor :=
  Pipeline.mkDescriptor i Pipeline.K_grid (Some "Numbers") None
    [ Pipeline.mkBlock Pipeline.B_stat "42%";
      Pipeline.mkBlock Pipeline.B_stat "7x" ]
    Pipeline.M_solid "#ffffff" "accent" (i =? 0)%nat.

(** The ten-slide deck of section 8: slides 0, 2, 5, 7 and 9 are a
    headline on a solid background. *)
Definition tenSlides : list Pipeline.SlideDescriptor :=
  [ headlineOnly 0; statistics 1; headlineOnly 2; paragraph 3; statistics 4;
    headlineOnly 5; paragraph 6; headlineOnly 7; statistics 8; headlineOnly 9 ].

(** A fit configuration with the constants the specification quotes:
    decrement 0.95, floor 0.6; the height of a block is a thousandth of
    text length times font size, truncation halves a text. *)
Definition fitConfig : FitValidator.FitConfig :=
  FitValidator.mkConfig
    (fun len size => (inject_Z (Z.of_nat len) * size * (1 # 1000))%Q)
    (19 # 20) (3 # 5)
    (fun b => FitValidator.mkLayoutBlock
                (FitValidator.blockId b) (FitValidator.role b)
                (Nat.div2 (FitValidator.textLength b))
                (FitValidator.fontSize b) (FitValidator.box b))
    (1 # 100)
    (fun _ => FitValidator.Horizontal)
    (1 # 20)
    8.

Definition fitSlide (bodyLength : nat) : FitValidator.ResolvedSlide :=
  FitValidator.mkResolved Pipeline.twoColumn [ ("color", "#202124") ]
    [ FitValidator.mkLayoutBlock 0 FitValidator.R_headline 20 (10 # 1)
        (FitValidator.mkBox 0 0 1 (1 # 5));
      FitValidator.mkLayoutBlock 1 FitValidator.R_body bodyLength (10 # 1)
        (FitValidator.mkBox 0 (1 # 5) (1 # 2) (4 # 5));
      FitValidator.mkLayoutBlock 2 FitValidator.R_body 10 (10 # 1)
        (FitValidator.mkBox (2 # 5) (1 # 5) (1 # 2) (4 # 5)) ].

End Examples.

(** * The rest of the front end

    The functions of the same files that the theme and rendering code
    above leaves out, and the components that use them. *)

(** [v?.a?.b] *)
Definition get_opt2 (v : value) (a b : string) : result value :=
  x <- get_opt v a ;; get_opt x b.

(** [s.includes(sub)] *)
Fixpoint includes (sub s : string) : bool :=
  String.prefix sub s
  || match s with
     | EmptyString => false
     | String _ s' => includes sub s'
     end.

(** ** config/theme.jsx, hooks/use-theme.js: layouts *)

Module Layouts.

Definition defaultLayouts : value :=
  VObj [ ("title",
          VObj [ ("container",
                  VStr "min-h-screen flex flex-col justify-center items-center relative overflow-hidden");
                 ("content", VStr "text-center z-10 px-8 py-16 max-w-5xl mx-auto");
                 ("heading", VStr "text-5xl md:text-7xl font-bold mb-6");
                 ("subtitle", VStr "text-xl md:text-2xl opacity-90") ]);
         ("content",
          VObj [ ("container", VStr "min-h-screen flex flex-col justify-center relative");
                 ("content", VStr "max-w-6xl mx-auto px-8 py-16");
                 ("heading", VStr "text-4xl font-bold mb-8");
                 ("body", VStr "prose prose-lg max-w-none") ]);
         ("split",
          VObj [ ("container", VStr "min-h-screen grid grid-cols-1 md:grid-cols-2 gap-12");
                 ("content", VStr "flex flex-col justify-center px-8 py-16");
                 ("heading", VStr "text-4xl font-bold mb-6");
                 ("body", VStr "prose prose-lg") ]) ].

Definition layoutNames : list string := [ "title"; "content"; "split" ].

(** [getLayout(type)]: [defaultLayouts[type] || defaultLayouts.content] *)
Definition getLayout (type : value) : result value :=
  l <- get_at defaultLayouts type ;;
  if truthy l then Ok l else get defaultLayouts "content".

End Layouts.

(** ** components/PresentationPreview.jsx: navigation *)

Module PresentationPreview.

(** The updaters of [setCurrentSlideIndex]; [slides] is
    [presentation.slides] of the loaded presentation. *)
Definition handlePrevious (slides : list value) (prev : Z) : Z :=
  if (prev >? 0)%Z then (prev - 1)%Z
  else (Z.of_nat (length slides) - 1)%Z.

Definition handleNext (slides : list value) (prev : Z) : Z :=
  if (prev <? Z.of_nat (length slides) - 1)%Z then (prev + 1)%Z
  else 0%Z.

(** The arrow keys: [ArrowLeft] goes back, [ArrowRight] forward, any
    other key leaves the index. *)
Definition handleKeyPress (slides : list value) (key : string) (index : Z) : Z :=
  let index := if key =? "ArrowLeft" then handlePrevious slides index else index in
  if key =? "ArrowRight" then handleNext slides index else index.

(** An index that shows a slide of the deck. *)
Definition inRange (slides : list value) (index : Z) : Prop :=
  (0 <= index < Z.of_nat (length slides))%Z.

End PresentationPreview.

(** ** components/theme-preview.jsx *)

Module ThemePreviewCard.

Record Swatch : Type := mkSwatch {
  swatchKey : string;
  swatchColor : value;
  swatchTitle : string
}.

(** [{theme?.colors && Object.entries(theme.colors).filter(...).map(...)}]:
    the swatches, or the falsy value of [theme?.colors] itself. *)
Inductive Swatches : Type :=
| NoSwatches (v : value)
| SwatchList (l : list Swatch).

Record Card : Type := mkCard {
  cardName : value;
  swatches : Swatches;
  backgroundPreview : value;
  titleFontFamily : value;
  titleFontLabel : value;
  contentFontFamily : value;
  contentFontLabel : value
}.

(** The colour roles that get a swatch:
    [!key.includes('_end') && !key.includes('background')]. *)
Definition shown (key : string) : bool :=
  negb (includes "_end" key) && negb (includes "background" key).

(** What [ThemePreview] reads and computes from [theme] and [name], in
    source order. *)
Definition ThemePreview (theme name : value) : result Card :=
  themeName <- get_opt theme "name" ;;
  colors <- get_opt theme "colors" ;;
  sw <- (if truthy colors then
           colors' <- get theme "colors" ;;
           es <- entries colors' ;;
           l <- mapM (fun e =>
                        id <- get theme "id" ;;
                        Ok (mkSwatch (to_string id ++ "-color-" ++ fst e)%string
                                     (snd e) (fst e)))
                     (filter (fun e => shown (fst e)) es) ;;
           Ok (SwatchList l)
         else Ok (NoSwatches colors)) ;;
  gradient <- get_opt2 theme "gradients" "primary" ;;
  background <-
    (if truthy gradient then Ok gradient
     else
       bg <- get_opt2 theme "colors" "background" ;;
       bgEnd <- get_opt2 theme "colors" "background_end" ;;
       Ok (VStr ("linear-gradient(135deg, "
                 ++ to_string (or_else bg (VStr "#ffffff")) ++ ", "
                 ++ to_string (or_else bgEnd (VStr "#f8f9fa")) ++ ")"))) ;;
  titleFont <- get_opt2 theme "fonts" "title" ;;
  titleFont' <- get_opt2 theme "fonts" "title" ;;
  contentFont <- get_opt2 theme "fonts" "content" ;;
  contentFont' <- get_opt2 theme "fonts" "content" ;;
  Ok (mkCard (or_else themeName name) sw background
             titleFont (or_else titleFont' (VStr "Default Title Font"))
             contentFont (or_else contentFont' (VStr "Default Content Font"))).

(** [onClick={() => onSelect(theme.id)}] *)
Definition onClick (theme : value) : result value := get theme "id".

End ThemePreviewCard.

(** ** App.jsx: what the render reads from the active theme *)

Module App.

Record View : Type := mkView {
  pageBackground : value;
  pageColor : value;
  headerBackground : value;
  headingFonts : list value;
  placeholderColor : option value
}.

(** The style values of the render, in source order; [currentProject]
    decides between the preview and the placeholder. *)
Definition render (theme currentProject : value) : result View :=
  bg <- get_opt2 theme "colors" "background" ;;
  fg <- get_opt2 theme "colors" "text" ;;
  gradient <- get_opt2 theme "gradients" "primary" ;;
  header <-
    (if truthy gradient then Ok gradient
     else
       p <- get_opt2 theme "colors" "primary" ;;
       s <- get_opt2 theme "colors" "secondary" ;;
       Ok (VStr ("linear-gradient(135deg, "
                 ++ to_string (or_else p (VStr "#1a73e8")) ++ ", "
                 ++ to_string (or_else s (VStr "#4285f4")) ++ ")"))) ;;
  h1 <- get2 theme "fonts" "heading" ;;
  h2 <- get2 theme "fonts" "heading" ;;
  placeholder <-
    (if truthy currentProject then Ok None
     else c <- get2 theme "colors" "secondary" ;; Ok (Some c)) ;;
  h3 <- get2 theme "fonts" "heading" ;;
  Ok (mkView (or_else bg (VStr "#ffffff")) (or_else fg (VStr "#000000"))
             header [ h1; h2; h3 ] placeholder).

End App.

(** ** Slide components (uses of [PresentationThemeContext]) *)

Module Slides.

(** [{x && (<p className=...>{x}</p>)}]: the element when [x] is truthy,
    the falsy value itself otherwise. *)
Inductive Optional : Type :=
| Shown (classes : list string) (text : value)
| NotShown (v : value).

Record TitleView : Type := mkTitleView {
  titleBackground : value;
  titleHeading : list string;
  titleText : value;
  titleSubtitle : Optional
}.

(** [TitleSlide({ title, subtitle, background })] on the context theme. *)
Definition TitleSlide (theme title subtitle background : value)
  : result TitleView :=
  bg <- (if truthy background then Ok background
         else
           p <- get2 theme "colors" "primary" ;;
           s <- get2 theme "colors" "secondary" ;;
           Ok (VStr ("linear-gradient(135deg, " ++ to_string p ++ ", "
                     ++ to_string s ++ ")"))) ;;
  hf <- get2 theme "fonts" "heading" ;;
  sub <- (if truthy subtitle then
            bf <- get2 theme "fonts" "body" ;;
            Ok (Shown [ to_string bf; "text-2xl md:text-3xl"; "text-white/90";
                        "animate-fade-in-delayed" ] subtitle)
          else Ok (NotShown subtitle)) ;;
  Ok (mkTitleView bg
        [ to_string hf; "text-6xl md:text-8xl font-bold mb-8";
          "text-white drop-shadow-lg"; "animate-fade-in" ]
        title sub).

Record ContentView : Type := mkContentView {
  contentBackground : value;
  contentLayout : value;
  contentHeading : list string;
  contentTitle : value;
  contentBody : list string;
  contentContent : value
}.

Definition layouts : value :=
  VObj [ ("standard", VStr "flex flex-col space-y-6");
         ("two-column", VStr "grid grid-cols-2 gap-8");
         ("image-left", VStr "grid grid-cols-2 gap-8");
         ("image-right", VStr "grid grid-cols-2 gap-8") ].

(** [ContentSlide({ title, content, layout = 'standard', background })] *)
Definition ContentSlide (theme title content layout background : value)
  : result ContentView :=
  let layout := default_arg layout (VStr "standard") in
  bg <- (if truthy background then Ok background
         else get2 theme "colors" "background") ;;
  cls <- get_at layouts layout ;;
  hf <- get2 theme "fonts" "heading" ;;
  bf <- get2 theme "fonts" "body" ;;
  Ok (mkContentView bg cls
        [ to_string hf; "text-4xl font-bold mb-8";
          if truthy background then "text-white drop-shadow-lg"
          else "text-gray-900" ]
        title
        [ to_string bf; "prose prose-lg max-w-none";
          if truthy background then "text-white prose-invert"
          else "text-gray-700" ]
        content).

(** The provider's theme after a run of [setTheme] calls. *)
Fixpoint afterSetThemes (names : list value) (current : value)
  : option (result value) :=
  match names with
  | [] => Some (Ok current)
  | n :: rest =>
      match PresentationThemeContext.setTheme n current with
      | Some (Ok current') => afterSetThemes rest current'
      | stopped => stopped
      end
  end.

End Slides.

(** ** Further inputs for the examples *)

Module MoreExamples.

(** A custom theme with colours only. *)
Definition coloursOnly : value :=
  VObj [ ("name", VStr "Colours only");
         ("colors", VObj [ ("primary", VStr "#111111");
                           ("secondary", VStr "#222222");
                           ("background", VStr "#fafafa");
                           ("text", VStr "#000000") ]) ].

Definition threeSlides : list value :=
  [ Examples.introSlide; Examples.untypedSlide; Examples.introSlide ].

Definition backgroundSlide : value :=
  VObj [ ("title", VStr "Launch");
         ("content", VStr "Next steps");
         ("background", VObj [ ("image", VStr "launch.png") ]) ].

End MoreExamples.

(** ** Tactics *)

(** Two runs of the same sequence of reads: follow them read by read;
    where a read throws both runs end alike. *)
Ltac step_binds :=
  repeat match goal with
         | |- bind ?c _ = bind ?c _ => destruct c; [cbn [bind] | reflexivity]
         end.

(** * Properties *)

(** ** Reading and writing own properties *)

Section OwnProperties.

Lemma assoc_set_eq (k : string) (v : value) (props : list (string * value)) :
  assoc k (set k v props) = Some v.
Proof.
  induction props as [| [k' v'] props IH]; simpl.
  - now rewrite String.eqb_refl.
  - destruct (k' =? k) eqn:E; simpl.
    + now rewrite String.eqb_refl.
    + now rewrite E.
Qed.

Lemma assoc_set_neq (k k' : string) (v : value) (props : list (string * value)) :
  k <> k' -> assoc k' (set k v props) = assoc k' props.
Proof.
  intros Hne. induction props as [| [k0 v0] props IH]; simpl.
  - apply String.eqb_neq in Hne. now rewrite Hne.
  - destruct (k0 =? k) eqn:E; simpl.
    + apply String.eqb_eq in E. subst k0.
      apply String.eqb_neq in Hne. now rewrite Hne.
    + destruct (k0 =? k'); auto.
Qed.

(** Apart from [length], the own properties a read sees are the
    enumerable ones. *)
Lemma own_enumerable_spec (v : value) (k : string) :
  k <> "length" -> own v k = assoc k (own_enumerable v).
Proof.
  intros Hne. apply String.eqb_neq in Hne.
  destruct v; simpl; try reflexivity; now rewrite Hne.
Qed.

Lemma get_VObj (props : list (string * value)) (k : string) :
  get (VObj props) k
  = Ok (match assoc k props with
        | Some x => x
        | None => inherited (VObj props) k
        end).
Proof. unfold get; simpl. now destruct (assoc k props). Qed.

Lemma bind_Ok_inv {A B : Type} (c : result A) (f : A -> result B) (b : B) :
  bind c f = Ok b -> exists a, c = Ok a /\ f a = Ok b.
Proof. destruct c as [a | e]; simpl; [eauto | discriminate]. Qed.

Lemma returns_bind {A B : Type} (c : result A) (f : A -> result B) :
  returns (bind c f)
  = match c with Ok a => returns (f a) | Throw _ => false end.
Proof. now destruct c. Qed.

End OwnProperties.

(** ** Style resolution ([generateSlideStyles]) *)

Section StyleResolution.

Import Theme ThemeUtils.

(** The sibling path [getThemeVariables] guards the optional
    [gradients] group and returns for every registered theme. *)
Lemma getThemeVariables_registered_returns :
  forallb (fun e => returns (getThemeVariables (snd e))) registered = true.
Proof. reflexivity. Qed.

(** C2: style resolution never reads a missing group of a registered
    theme, so it never throws.  The code does the opposite: on each of
    the four registered themes [generateSlideStyles] throws, for every
    slide type, because [slideTypes] is built whole and reads
    [theme.gradients.primary] (missing in three themes) and
    [theme.patterns.dots] (missing in all four). *)
Theorem C2_generateSlideStyles_throws_on_registered :
  forall type : value,
    generateSlideStyles corporate_blue type = Throw (TypeError_read VUndef "primary")
    /\ generateSlideStyles elegant_dark type = Throw (TypeError_read VUndef "primary")
    /\ generateSlideStyles nature_green type = Throw (TypeError_read VUndef "primary")
    /\ generateSlideStyles modern_gradient type = Throw (TypeError_read VUndef "dots").
Proof. intros type. repeat split; reflexivity. Qed.

(** The themes of the second registry have no [gradients] either. *)
Lemma generateSlideStyles_throws_on_presentation_themes :
  forall type : value,
    generateSlideStyles PresentationThemeContext.modern type
      = Throw (TypeError_read VUndef "primary")
    /\ generateSlideStyles PresentationThemeContext.elegant type
      = Throw (TypeError_read VUndef "primary")
    /\ generateSlideStyles PresentationThemeContext.vibrant type
      = Throw (TypeError_read VUndef "primary").
Proof. intros type. repeat split; reflexivity. Qed.

Lemma get_not_nullish (v : value) (k : string) :
  nullish v = false -> exists x, get v k = Ok x.
Proof.
  intros H. unfold get. destruct v; try discriminate;
    destruct (own _ k); eauto.
Qed.

(** Resolution returns exactly on the themes that have the four groups
    [colors], [fonts], [gradients] and [patterns], whatever the type. *)
Lemma generateSlideStyles_returns (theme type : value) :
  returns (generateSlideStyles theme type)
  = forallb (has_group theme) requiredGroups.
Proof.
  unfold generateSlideStyles, requiredGroups, forallb, has_group, get2.
  destruct (get theme "colors") as [c |]; [| reflexivity].
  cbn [bind]. destruct (nullish c) eqn:Nc.
  { destruct c; try discriminate; reflexivity. }
  destruct (get_not_nullish c "background" Nc) as [? ->].
  destruct (get_not_nullish c "text" Nc) as [? ->].
  destruct (get_not_nullish c "primary" Nc) as [? ->].
  destruct (get_not_nullish c "secondary" Nc) as [? ->].
  cbn [bind negb andb].
  destruct (get theme "fonts") as [f |]; [| reflexivity].
  cbn [bind]. destruct (nullish f) eqn:Nf.
  { destruct f; try discriminate; reflexivity. }
  destruct (get_not_nullish f "body" Nf) as [? ->].
  destruct (get_not_nullish f "heading" Nf) as [? ->].
  cbn [bind negb andb].
  destruct (get theme "gradients") as [g |]; [| reflexivity].
  cbn [bind]. destruct (nullish g) eqn:Ng.
  { destruct g; try discriminate; reflexivity. }
  destruct (get_not_nullish g "primary" Ng) as [? ->].
  destruct (get_not_nullish g "secondary" Ng) as [? ->].
  cbn [bind negb andb].
  destruct (get theme "patterns") as [p |]; [| reflexivity].
  cbn [bind]. destruct (nullish p) eqn:Np.
  { destruct p; try discriminate; reflexivity. }
  destruct (get_not_nullish p "dots" Np) as [? ->].
  cbn [bind negb andb].
  match goal with
  | |- returns (bind (get_at (VObj ?props) ?t) _) = _ =>
      destruct (get_not_nullish (VObj props) (to_string t) eq_refl) as [ch Hch];
      unfold get_at; rewrite Hch; cbn [bind];
      destruct (truthy ch); [reflexivity |];
      destruct (get_not_nullish (VObj props) "content" eq_refl) as [? ->];
      reflexivity
  end.
Qed.

(** On a theme that has all four groups, resolution returns for each of
    the five slide types. *)
Lemma generateSlideStyles_complete_returns :
  forallb (fun t => returns (generateSlideStyles Examples.completeTheme (VStr t)))
          slideTypeNames = true.
Proof. reflexivity. Qed.

End StyleResolution.

(** ** Slides without a type *)

Section MissingType.

Import Theme ThemeUtils.

Lemma generateSlideStyles_default_is_content (theme : value) :
  generateSlideStyles theme VUndef = generateSlideStyles theme (VStr "content").
Proof. unfold generateSlideStyles. step_binds. reflexivity. Qed.

(** C6 (amended): a slide record with no type is styled as a content
    slide, and is not given the type: resolving with the type left out
    is resolving with type ['content'] (the substituted name ['default']
    has no entry in [slideTypes]); [applyThemeToSlide] returns exactly
    when that resolution does, with its result as [styles] and [type]
    still absent; [renderSlide] tags such a slide ['standard']. *)
Theorem C6_missing_type_resolves_as_content :
  forall (theme slide : value),
    get slide "type" = Ok VUndef ->
    generateSlideStyles theme VUndef = generateSlideStyles theme (VStr "content")
    /\ returns (applyThemeToSlide slide theme)
       = returns (generateSlideStyles theme (VStr "content"))
    /\ (forall r, applyThemeToSlide slide theme = Ok r ->
          get r "styles" = generateSlideStyles theme (VStr "content")
          /\ get r "type" = Ok VUndef)
    /\ (forall i el, Presentation.renderSlide slide i = Ok el ->
          Presentation.dataSlideType el = VStr "standard").
Proof.
  intros theme slide Htype.
  pose proof (generateSlideStyles_default_is_content theme) as Hdef.
  split; [exact Hdef |]. split; [| split].
  - unfold applyThemeToSlide. rewrite Htype. cbn [bind]. rewrite Hdef.
    now destruct (generateSlideStyles theme (VStr "content")).
  - intros r Hr. unfold applyThemeToSlide in Hr. rewrite Htype in Hr.
    cbn [bind] in Hr. rewrite Hdef in Hr.
    destruct (generateSlideStyles theme (VStr "content")) as [styles | e];
      [| discriminate].
    cbn in Hr. injection Hr as <-. split.
    + rewrite get_VObj, assoc_set_neq by discriminate.
      now rewrite assoc_set_eq.
    + rewrite get_VObj, !assoc_set_neq by discriminate.
      rewrite <- own_enumerable_spec by discriminate.
      unfold get in Htype. destruct slide; try discriminate;
        destruct (own _ "type") eqn:E; try (injection Htype as ->; reflexivity);
        reflexivity.
  - intros i el Hr. unfold Presentation.renderSlide in Hr. rewrite Htype in Hr.
    cbn [bind default_arg] in Hr.
    repeat match type of Hr with
           | bind ?c _ = Ok _ =>
               apply bind_Ok_inv in Hr; destruct Hr as [? [_ Hr]]
           end.
    injection Hr as <-. reflexivity.
Qed.

Lemma C6_missing_type_resolves_as_content_witness :
  get Examples.untypedSlide "type" = Ok VUndef
  /\ returns (applyThemeToSlide Examples.untypedSlide Examples.completeTheme) = true
  /\ generateSlideStyles Examples.completeTheme VUndef
     = generateSlideStyles Examples.completeTheme (VStr "content").
Proof.
  split; [reflexivity |]. split; [reflexivity |].
  exact (proj1 (C6_missing_type_resolves_as_content
                  Examples.completeTheme Examples.untypedSlide eq_refl)).
Defined.

(** C6, as stated, fails: normalization does not assign the kind
    ['content'].  [renderSlide] tags a record without type ['standard'],
    and the slide [applyThemeToSlide] returns still has no type. *)
Lemma C6_counterexample_kind_is_not_content :
  (exists el, Presentation.renderSlide Examples.untypedSlide 1 = Ok el
              /\ Presentation.dataSlideType el = VStr "standard"
              /\ Presentation.dataSlideType el <> VStr "content")
  /\ (exists r, applyThemeToSlide Examples.untypedSlide Examples.completeTheme = Ok r
                /\ get r "type" = Ok VUndef
                /\ get r "type" <> Ok (VStr "content")).
Proof.
  split.
  - eexists. split; [reflexivity |]. split; [reflexivity | discriminate].
  - eexists. split; [reflexivity |]. split; [reflexivity | discriminate].
Qed.

End MissingType.

(** ** Theme application ([applyThemeToSlide], [applyThemeToPresentation]) *)

Section ThemeApplication.

Import Theme ThemeUtils.

(** C8: theme application returns a new slide (presentation) for every
    slide and theme.  The code does not: on every registered theme
    [applyThemeToSlide] throws for every slide, and
    [applyThemeToPresentation] throws as soon as the deck has a slide,
    because both go through [generateSlideStyles]. *)
Theorem C8_applyTheme_throws_on_registered :
  forall slide : value,
    forallb (fun e => throws (applyThemeToSlide slide (snd e))) registered = true
    /\ applyThemeToSlide Examples.introSlide corporate_blue
       = Throw (TypeError_read VUndef "primary")
    /\ applyThemeToPresentation Examples.deck corporate_blue
       = Throw (TypeError_read VUndef "primary")
    /\ forallb (fun e => throws (applyThemeToPresentation Examples.deck (snd e)))
               registered = true.
Proof.
  intros slide. split; [| repeat split; reflexivity].
  unfold applyThemeToSlide.
  destruct (get slide "type") as [t | e]; reflexivity.
Qed.

(** Whenever theme application does return, it is a frame-preserving
    copy: every own field of the input other than [styles] and
    [transition] is in the result with the same value. *)
Lemma applyThemeToSlide_frame (slide theme r : value) :
  applyThemeToSlide slide theme = Ok r ->
  exists props,
    r = VObj props
    /\ forall k, k <> "styles" -> k <> "transition" ->
                 assoc k props = assoc k (own_enumerable slide).
Proof.
  unfold applyThemeToSlide. intros H.
  apply bind_Ok_inv in H. destruct H as [t [_ H]].
  apply bind_Ok_inv in H. destruct H as [styles [_ H]].
  apply bind_Ok_inv in H. destruct H as [fade [_ H]].
  injection H as <-. eexists. split; [reflexivity |].
  intros k Hs Ht. rewrite !assoc_set_neq; auto.
Qed.

Lemma applyThemeToSlide_returns (slide theme : value) :
  returns (applyThemeToSlide slide theme)
  = match get slide "type" with
    | Ok t => returns (generateSlideStyles theme t)
    | Throw _ => false
    end.
Proof.
  unfold applyThemeToSlide. destruct (get slide "type") as [t | e]; [| reflexivity].
  cbn [bind]. now destruct (generateSlideStyles theme t).
Qed.

Lemma mapM_length {A B : Type} (f : A -> result B) (l : list A) (l' : list B) :
  mapM f l = Ok l' -> length l' = length l.
Proof.
  revert l'. induction l as [| a l IH]; simpl; intros l' H.
  - now injection H as <-.
  - apply bind_Ok_inv in H. destruct H as [b [_ H]].
    apply bind_Ok_inv in H. destruct H as [bs [Hbs H]].
    injection H as <-. simpl. f_equal. now apply IH.
Qed.

Lemma mapM_nth {A B : Type} (f : A -> result B) (l : list A) (l' : list B) :
  mapM f l = Ok l' ->
  forall i a, nth_error l i = Some a ->
              exists b, nth_error l' i = Some b /\ f a = Ok b.
Proof.
  revert l'. induction l as [| a0 l IH]; simpl; intros l' H i a Hi.
  - destruct i; discriminate.
  - apply bind_Ok_inv in H. destruct H as [b [Hb H]].
    apply bind_Ok_inv in H. destruct H as [bs [Hbs H]].
    injection H as <-. destruct i as [| i]; simpl in *.
    + injection Hi as <-. eauto.
    + eapply IH; eauto.
Qed.

Lemma applyThemeToPresentation_frame (presentation theme r : value) :
  applyThemeToPresentation presentation theme = Ok r ->
  exists props,
    r = VObj props
    /\ (forall k, k <> "slides" -> k <> "theme" -> k <> "styles" ->
                  assoc k props = assoc k (own_enumerable presentation))
    /\ exists old new,
         get presentation "slides" = Ok (VArr old)
         /\ assoc "slides" props = Some (VArr new)
         /\ length new = length old
         /\ forall i s, nth_error old i = Some s ->
                        exists s', nth_error new i = Some s'
                                   /\ applyThemeToSlide s theme = Ok s'.
Proof.
  unfold applyThemeToPresentation. intros H.
  apply bind_Ok_inv in H. destruct H as [slides0 [Hs0 H]].
  apply bind_Ok_inv in H. destruct H as [slides [Hmap H]].
  repeat match type of H with
         | bind ?c _ = Ok _ => apply bind_Ok_inv in H; destruct H as [? [_ H]]
         end.
  injection H as <-. eexists. split; [reflexivity |]. split.
  - intros k H1 H2 H3. rewrite !assoc_set_neq; auto.
  - destruct slides0; try discriminate. simpl in Hmap.
    apply bind_Ok_inv in Hmap. destruct Hmap as [new [Hnew Hmap]].
    injection Hmap as <-. exists elems, new. split; [exact Hs0 |]. split.
    + rewrite !assoc_set_neq by discriminate. apply assoc_set_eq.
    + split; [eapply mapM_length; eauto | eapply mapM_nth; eauto].
Qed.

(** On a theme with all four groups both functions return. *)
Lemma applyTheme_complete_returns :
  returns (applyThemeToSlide Examples.introSlide Examples.completeTheme) = true
  /\ returns (applyThemeToPresentation Examples.deck Examples.completeTheme) = true.
Proof. split; reflexivity. Qed.

End ThemeApplication.

(** ** Theme selection ([switchTheme], [setTheme]) *)

Section ThemeSelection.

Import Theme.

Lemma assoc_registered (id : string) :
  is_registered id
  = match assoc id registered with Some _ => true | None => false end.
Proof.
  unfold is_registered, registered, defaultThemes, own_enumerable.
  cbn [existsb assoc fst].
  repeat (destruct (_ =? id); cbn [orb]; [reflexivity |]). reflexivity.
Qed.

Lemma inherited_unknown (v : value) (k : string) :
  is_inherited_name k = false -> inherited v k = VUndef.
Proof.
  unfold is_inherited_name, inherited. intros H.
  apply orb_false_iff in H. destruct H as [H1 H2]. rewrite H1.
  rewrite H2. destruct (k =? "constructor") eqn:E; [| reflexivity].
  apply String.eqb_eq in E. subst k. discriminate.
Qed.

Lemma get_defaultThemes (id : string) :
  get defaultThemes id
  = Ok (match assoc id registered with
        | Some x => x
        | None => inherited defaultThemes id
        end).
Proof. apply get_VObj. Qed.

(** An identifier that is neither a registered key nor a name inherited
    from [Object.prototype] leaves the state as it is. *)
Lemma switchTheme_unknown (id : string) (st : ThemeState) :
  is_registered id = false -> is_inherited_name id = false ->
  ThemeContext.switchTheme (VStr id) st = Ok st
  /\ UseTheme.switchTheme (VStr id) st = Ok st.
Proof.
  intros Hreg Hinh.
  unfold ThemeContext.switchTheme, UseTheme.switchTheme, get_at.
  cbn [to_string].
  rewrite get_defaultThemes. rewrite assoc_registered in Hreg.
  destruct (assoc id registered); [discriminate |].
  rewrite inherited_unknown by exact Hinh. split; reflexivity.
Qed.

(** A registered identifier is selected and the custom theme dropped. *)
Lemma switchTheme_registered (id : string) (st : ThemeState) :
  is_registered id = true ->
  ThemeContext.switchTheme (VStr id) st = Ok (mkThemeState (VStr id) VNull)
  /\ UseTheme.switchTheme (VStr id) st = Ok (mkThemeState (VStr id) VNull).
Proof.
  intros Hreg.
  unfold ThemeContext.switchTheme, UseTheme.switchTheme, get_at.
  cbn [to_string]. rewrite get_defaultThemes.
  unfold is_registered in Hreg.
  destruct (assoc id registered) as [entry |] eqn:E.
  - assert (Ht : truthy entry = true).
    { unfold registered, defaultThemes, own_enumerable in E.
      cbn [assoc] in E.
      repeat (destruct (_ =? id); [injection E as <-; reflexivity |]).
      discriminate. }
    cbn [bind]. rewrite Ht. split; reflexivity.
  - fold (is_registered id) in Hreg. rewrite assoc_registered, E in Hreg.
    discriminate.
Qed.

(** C9: [switchTheme] changes the selection only for an identifier of
    the registered table.  The guard [if (defaultThemes[themeId])] also
    passes for every name an object literal inherits: ['constructor'] is
    no registered theme, yet [switchTheme('constructor')] selects it and
    drops the custom theme, after which the active theme is the function
    [Object]; the same holds for the hook of use-theme.js.  [setTheme]
    of the presentation theme provider has the same guard: ['__proto__']
    is no key of [themes], yet [setTheme('__proto__')] makes
    [Object.prototype] the theme.  There ['constructor'] leaves the
    theme as it is, but only because React calls the function [Object]
    as an updater, and [Object(prev)] is [prev]. *)
Theorem C9_switchTheme_accepts_inherited_names :
  let before := mkThemeState (VStr "nature_green") Examples.noAccent in
  let after := mkThemeState (VStr "constructor") VNull in
  is_registered "constructor" = false
  /\ ThemeContext.switchTheme (VStr "constructor") before = Ok after
  /\ ThemeContext.theme after = Ok (VHost "Object" true)
  /\ UseTheme.switchTheme (VStr "constructor") before = Ok after
  /\ UseTheme.theme after = Ok (VHost "Object" true)
  /\ assoc "__proto__" (own_enumerable PresentationThemeContext.themes) = None
  /\ PresentationThemeContext.setTheme (VStr "__proto__")
       PresentationThemeContext.modern = Some (Ok ObjectPrototype)
  /\ PresentationThemeContext.setTheme (VStr "constructor")
       PresentationThemeContext.modern = Some (Ok PresentationThemeContext.modern).
Proof. repeat split; reflexivity. Qed.

(** The hook of use-theme.js starts on ['modern'], which is not a key of
    [defaultThemes]: its first active theme is [undefined]. *)
Lemma UseTheme_initial_theme_undefined :
  is_registered "modern" = false
  /\ UseTheme.theme (UseTheme.initial VUndef) = Ok VUndef.
Proof. split; reflexivity. Qed.

(** C3 (amended): no theme entry is rejected for a missing role.
    [setTheme] makes every non-null object the custom theme, and that
    object is then the active theme; nothing is checked and no
    configuration error exists. *)
Theorem C3_setTheme_accepts_every_object :
  forall (themeConfig : value) (st : ThemeState),
    typeof themeConfig = "object" -> themeConfig <> VNull ->
    ThemeContext.setTheme themeConfig st
      = mkThemeState (currentTheme st) themeConfig
    /\ ThemeContext.theme (ThemeContext.setTheme themeConfig st) = Ok themeConfig.
Proof.
  intros cfg st Hty Hnn. unfold ThemeContext.setTheme. rewrite Hty.
  destruct cfg; try discriminate; try contradiction; simpl; split;
    try reflexivity.
  all: destruct callable; try discriminate; reflexivity.
Qed.

Lemma C3_setTheme_accepts_every_object_witness :
  typeof Examples.noAccent = "object" /\ Examples.noAccent <> VNull
  /\ ThemeContext.theme (ThemeContext.setTheme Examples.noAccent ThemeContext.initial)
     = Ok Examples.noAccent.
Proof.
  split; [reflexivity |]. split; [discriminate |].
  exact (proj2 (C3_setTheme_accepts_every_object
                  Examples.noAccent ThemeContext.initial eq_refl
                  (fun H => match H with eq_refl => I end))).
Defined.

(** What is not an object, and [null], is ignored. *)
Lemma setTheme_ignores_non_objects (themeConfig : value) (st : ThemeState) :
  typeof themeConfig <> "object" \/ themeConfig = VNull ->
  ThemeContext.setTheme themeConfig st = st.
Proof.
  intros [H | ->]; [| reflexivity]. unfold ThemeContext.setTheme.
  apply String.eqb_neq in H. now rewrite H.
Qed.

(** C3, as stated, fails: a theme without [colors.accent] is not
    rejected.  [setTheme] installs it and it is the active theme. *)
Lemma C3_counterexample_missing_role_accepted :
  get2 Examples.noAccent "colors" "accent" = Ok VUndef
  /\ ThemeContext.setTheme Examples.noAccent ThemeContext.initial
     = mkThemeState (VStr "corporate_blue") Examples.noAccent
  /\ ThemeContext.theme (ThemeContext.setTheme Examples.noAccent ThemeContext.initial)
     = Ok Examples.noAccent.
Proof. repeat split; reflexivity. Qed.

End ThemeSelection.

(** ** Reading a theme value by path ([getThemeValue]) *)

Section ThemeValue.

Import Theme UseTheme.

(** The guard of the loop covers [undefined]: the only exception a walk
    can raise is a read through [null]. *)
Lemma walk_throws_only_through_null (parts : list string) :
  forall (v : value) (e : error),
    walk v parts = Throw e -> exists k, e = TypeError_read VNull k.
Proof.
  induction parts as [| part rest IH]; intros v e H; simpl in H.
  - discriminate.
  - destruct v; try discriminate;
      try (unfold get in H;
           match type of H with
           | bind (match ?o with _ => _ end) _ = _ => destruct o
           end; simpl in H; eapply IH; eassumption).
    simpl in H. injection H as <-. eauto.
Qed.

Lemma getThemeValue_undefined_theme (path : string) :
  getThemeValue VUndef path = Ok VUndef.
Proof.
  unfold getThemeValue, split_dots.
  destruct (split_dots_aux path EmptyString) eqn:E; reflexivity.
Qed.

(** C10: [getThemeValue] never throws.  The loop stops at [undefined]
    but not at [null]: a theme whose [colors] is [null] (as
    [updateCustomTheme] can produce) makes [getThemeValue
    ('colors.primary')] throw, and on a registered theme the path
    ['__proto__.__proto__.id'] throws as well.  Paths over existing and
    over missing segments behave as claimed. *)
Theorem C10_getThemeValue_throws_through_null :
  let updates := VObj [ ("colors", VNull) ] in
  getThemeValue updates "colors.primary" = Throw (TypeError_read VNull "primary")
  /\ (exists st theme,
        updateCustomTheme updates (mkThemeState (VStr "corporate_blue") VNull) = Ok st
        /\ UseTheme.theme st = Ok theme
        /\ getThemeValue theme "id" = Ok (VStr "corporate_blue")
        /\ getThemeValue theme "colors.primary"
           = Throw (TypeError_read VNull "primary"))
  /\ getThemeValue corporate_blue "__proto__.__proto__.id"
     = Throw (TypeError_read VNull "id")
  /\ getThemeValue corporate_blue "colors.primary" = Ok (VStr "#1a73e8")
  /\ getThemeValue corporate_blue "colors.nope.deeper" = Ok VUndef.
Proof.
  cbv zeta. split; [reflexivity |]. split.
  - eexists. eexists. repeat split; reflexivity.
  - repeat split; reflexivity.
Qed.

End ThemeValue.

(** ** Rendering ([renderSlide]) *)

Section Rendering.

Import Presentation.

Lemma is_str_default (x : value) (d s : string) :
  (d =? s) = false -> is_str (default_arg x (VStr d)) s = is_str x s.
Proof. intros H. destruct x; simpl; auto. Qed.

Lemma layout_is_title (layout : value) :
  (("slide-content p-12 " ++ getLayoutClasses layout)
   =? ("slide-content p-12 " ++ titleLayout))
  = is_str layout "title".
Proof.
  unfold getLayoutClasses.
  destruct (is_str layout "title") eqn:E1; [reflexivity |].
  destruct (is_str layout "split"); [reflexivity |].
  destruct (is_str layout "image-left"); reflexivity.
Qed.

(** C4 (amended): the renderer gives position 0 no special treatment.
    The section rendered for a slide depends on its index only through
    the React key, and it carries the title (hero) treatment exactly
    when the slide's own [type] or [layout] field is ['title']. *)
Theorem C4_renderSlide_ignores_position :
  forall (slide : value) (i : nat),
    renderSlide slide i = (el <- renderSlide slide 0 ;; Ok (setKey i el))
    /\ forall el, renderSlide slide i = Ok el ->
         exists type layout,
           get slide "type" = Ok type /\ get slide "layout" = Ok layout
           /\ heroLike el = is_str type "title" || is_str layout "title".
Proof.
  intros slide i. split.
  - unfold renderSlide.
    repeat match goal with
           | |- bind ?c _ = bind (bind ?c _) _ =>
               destruct c; [cbn [bind] | reflexivity]
           end.
    reflexivity.
  - intros el H. unfold renderSlide in H.
    apply bind_Ok_inv in H. destruct H as [type [Htype H]].
    apply bind_Ok_inv in H. destruct H as [title [_ H]].
    apply bind_Ok_inv in H. destruct H as [content [_ H]].
    apply bind_Ok_inv in H. destruct H as [background [_ H]].
    apply bind_Ok_inv in H. destruct H as [layout [Hlayout H]].
    repeat match type of H with
           | bind ?c _ = Ok _ => apply bind_Ok_inv in H; destruct H as [? [_ H]]
           end.
    injection H as <-. exists type, layout. repeat split; auto.
    unfold heroLike. cbn [dataSlideType contentClassName].
    rewrite <- (is_str_default type "standard" "title") by reflexivity.
    rewrite <- (is_str_default layout "default" "title") by reflexivity.
    rewrite <- (layout_is_title (default_arg layout (VStr "default"))).
    reflexivity.
Qed.

Lemma C4_renderSlide_ignores_position_witness :
  exists el,
    renderSlide Examples.untypedSlide 0 = Ok el
    /\ renderSlide Examples.untypedSlide 4 = Ok (setKey 4 el)
    /\ heroLike el = false.
Proof.
  eexists. split; [reflexivity |]. split.
  - exact (proj1 (C4_renderSlide_ignores_position Examples.untypedSlide 4)).
  - destruct (proj2 (C4_renderSlide_ignores_position Examples.untypedSlide 0)
                _ eq_refl) as [type [layout [Ht [Hl Hh]]]].
    injection Ht as <-. injection Hl as <-. exact Hh.
Defined.

(** C4, as stated, fails: the first slide of a deck is rendered with the
    default layout and the tag ['standard'] unless its own fields say
    otherwise, exactly like the same slide further down. *)
Lemma C4_counterexample_first_slide_not_hero :
  exists first second,
    Presentation.Presentation (VArr [ Examples.untypedSlide; Examples.untypedSlide ])
      = Ok [ first; second ]
    /\ key first = 0
    /\ heroLike first = false
    /\ dataSlideType first = VStr "standard"
    /\ contentClassName first = ("slide-content p-12 " ++ defaultLayout)%string
    /\ second = setKey 1 first.
Proof. eexists. eexists. repeat split; reflexivity. Qed.

End Rendering.

(** ** Variety Enforcement (specification, section 4.3) *)

Section VarietyEnforcement.

Import Pipeline.

Local Open Scope nat_scope.

Variable h : Heuristics.

Lemma candidate_not_plain (slot : nat) :
  family_eqb (candidate slot) plain = false.
Proof.
  unfold candidate.
  assert (Hlt : slot mod 5 < 5) by (apply Nat.mod_upper_bound; discriminate).
  destruct (slot mod 5) as [| [| [| [| [| n]]]]]; try reflexivity; lia.
Qed.

Lemma pickFamily_not_plain (slot : nat) (prev next : option Family) :
  family_eqb (fst (pickFamily slot prev next)) plain = false.
Proof.
  unfold pickFamily. destruct (firstFree 5 slot prev next); apply candidate_not_plain.
Qed.

Lemma family_eqb_eq (a b : Family) : family_eqb a b = true <-> a = b.
Proof. destruct a, b; simpl; split; intros H; try reflexivity; discriminate. Qed.

Lemma flagged_isPlain (c : LayoutClassification) :
  flagged h c = true -> isPlain c = true.
Proof. unfold flagged. intros H. now apply andb_true_iff in H. Qed.

Lemma plain_isPlain_flagged (c : LayoutClassification) :
  family_eqb (family c) plain = true -> isPlain c = true -> flagged h c = true.
Proof.
  intros Hf Hp. unfold flagged. rewrite Hp. apply family_eqb_eq in Hf.
  rewrite Hf. simpl. now rewrite andb_false_r.
Qed.

Lemma plainIndicesFrom_length (i j : nat) (deck : list Classified) :
  length (plainIndicesFrom h i deck) = length (plainIndicesFrom h j deck).
Proof.
  revert i j. induction deck as [| [d c] rest IH]; intros i j; simpl.
  - reflexivity.
  - destruct (flagged h c); simpl; auto.
Qed.

Lemma plainIndicesFrom_In (deck : list Classified) :
  forall i j d c,
    nth_error deck j = Some (d, c) -> flagged h c = true ->
    In (i + j) (plainIndicesFrom h i deck).
Proof.
  induction deck as [| [d0 c0] rest IH]; intros i j d c Hn Hf.
  - destruct j; discriminate.
  - destruct j as [| j]; simpl in *.
    + injection Hn as -> ->. rewrite Hf. left. lia.
    + specialize (IH (S i) j d c Hn Hf).
      replace (i + S j) with (S i + j) by lia.
      destruct (flagged h c0); [right |]; exact IH.
Qed.

Lemma keptFrom_In (deck : list Classified) :
  forall i k r, keptFrom h i deck = Some (k, r) -> In k (plainIndicesFrom h i deck).
Proof.
  induction deck as [| [d c] rest IH]; intros i k r H; simpl in *.
  - discriminate.
  - destruct (flagged h c).
    + destruct (keptFrom h (S i) rest) as [[j rj] |] eqn:E.
      * destruct (richness h d <? rj).
        -- injection H as <- <-. right. eapply IH; eauto.
        -- injection H as <- <-. now left.
      * injection H as <- <-. now left.
    + eapply IH; eauto.
Qed.

Lemma keptFrom_None (deck : list Classified) :
  forall i, keptFrom h i deck = None -> plainIndicesFrom h i deck = [].
Proof.
  induction deck as [| [d c] rest IH]; intros i H; simpl in *.
  - reflexivity.
  - destruct (flagged h c).
    + destruct (keptFrom h (S i) rest) as [[j rj] |];
        [destruct (richness h d <? rj) |]; discriminate.
    + auto.
Qed.

(** What [redesign] does to the slide at each position. *)
Lemma redesign_nth (deck : list Classified) :
  forall keep i slot prev j d c,
    nth_error deck j = Some (d, c) ->
    (flagged h c = true -> i + j <> keep ->
     exists d' f,
       nth_error (redesign h keep i slot prev deck) j
         = Some (d', mkClassification false f)
       /\ family_eqb f plain = false)
    /\ (flagged h c = false \/ i + j = keep ->
        nth_error (redesign h keep i slot prev deck) j = Some (d, c)).
Proof.
  induction deck as [| [d0 c0] rest IH]; intros keep i slot prev j d c Hn.
  - destruct j; discriminate.
  - destruct j as [| j]; simpl in Hn.
    + injection Hn as -> ->. split.
      * intros Hf Hne. simpl. rewrite Hf.
        replace (i + 0) with i in Hne by lia.
        apply Nat.eqb_neq in Hne. rewrite Hne. simpl.
        destruct (pickFamily slot prev _) as [f slot'] eqn:E. simpl.
        exists (synthesize h f d), f. split; [reflexivity |].
        pose proof (pickFamily_not_plain slot prev
          (option_map (fun s => family (snd s)) (hd_error rest))) as Hp.
        now rewrite E in Hp.
      * intros Hc. simpl.
        destruct Hc as [Hc | Hc].
        -- rewrite Hc. reflexivity.
        -- replace (i + 0) with i in Hc by lia. subst keep.
           rewrite Nat.eqb_refl, andb_false_r. reflexivity.
    + simpl.
      destruct (flagged h c0 && negb (i =? keep)).
      * destruct (pickFamily slot prev _) as [f slot']. simpl.
        specialize (IH keep (S i) slot' (Some f) j d c Hn).
        replace (S i + j) with (i + S j) in IH by lia. exact IH.
      * simpl.
        specialize (IH keep (S i) slot (Some (family c0)) j d c Hn).
        replace (S i + j) with (i + S j) in IH by lia. exact IH.
Qed.

Lemma redesign_length (deck : list Classified) :
  forall keep i slot prev,
    length (redesign h keep i slot prev deck) = length deck.
Proof.
  induction deck as [| [d c] rest IH]; intros keep i slot prev; simpl.
  - reflexivity.
  - destruct (flagged h c && negb (i =? keep)).
    + destruct (pickFamily slot prev _) as [f slot']. simpl. now rewrite IH.
    + simpl. now rewrite IH.
Qed.

(** After a redesign only the kept slide can still be flagged. *)
Lemma redesign_flagged (deck : list Classified) :
  forall keep i slot prev j,
    length (plainIndicesFrom h j (redesign h keep i slot prev deck))
    <= if i <=? keep then 1 else 0.
Proof.
  induction deck as [| [d c] rest IH]; intros keep i slot prev j; simpl.
  - destruct (i <=? keep); lia.
  - destruct (flagged h c && negb (i =? keep)) eqn:E.
    + destruct (pickFamily slot prev _) as [f slot']. simpl.
      specialize (IH keep (S i) slot' (Some f) (S j)).
      destruct (i <=? keep) eqn:E1, (S i <=? keep) eqn:E2; try lia.
      apply Nat.leb_le in E2. apply Nat.leb_gt in E1. lia.
    + simpl. specialize (IH keep (S i) slot (Some (family c)) (S j)).
      destruct (flagged h c) eqn:Ef.
      * simpl in E. apply negb_false_iff, Nat.eqb_eq in E. subst keep.
        simpl. rewrite Nat.leb_refl.
        replace (S i <=? i) with false in IH
          by (symmetry; apply Nat.leb_gt; lia).
        lia.
      * destruct (i <=? keep) eqn:E1, (S i <=? keep) eqn:E2; try lia.
        apply Nat.leb_le in E2. apply Nat.leb_gt in E1. lia.
Qed.

Lemma enforce_flagged (deck : list Classified) :
  length (plainIndices h (enforce h deck)) <= 1.
Proof.
  unfold enforce.
  destruct (length (plainIndices h deck) <=? 1) eqn:E.
  - now apply Nat.leb_le in E.
  - destruct (kept h deck) as [keep |] eqn:K.
    + unfold plainIndices.
      pose proof (redesign_flagged deck keep 0 0 None 0) as H.
      simpl in H. exact H.
    + apply Nat.leb_gt in E. unfold kept in K.
      destruct (keptFrom h 0 deck) as [[k r] |] eqn:K'; [discriminate |].
      apply keptFrom_None in K'. unfold plainIndices in E.
      rewrite K' in E. simpl in E. lia.
Qed.

(** C7: Variety Enforcement is idempotent, and a deck with at most one
    plain slide is returned as it is. *)
Theorem C7_enforce_idempotent :
  forall deck : list Classified,
    enforce h (enforce h deck) = enforce h deck
    /\ (length (plainIndices h deck) <= 1 -> enforce h deck = deck).
Proof.
  intros deck. split.
  - pose proof (enforce_flagged deck) as H. apply Nat.leb_le in H.
    unfold enforce at 1. now rewrite H.
  - intros H. apply Nat.leb_le in H. unfold enforce. now rewrite H.
Qed.

(** Unflagged slides of the plain family stay, and of the flagged ones
    only the kept one can stay plain. *)
Lemma redesign_plainCount (deck : list Classified) :
  forall keep i slot prev,
    plainCount (redesign h keep i slot prev deck)
    <= unflaggedPlainCount deck + if i <=? keep then 1 else 0.
Proof.
  unfold plainCount, unflaggedPlainCount.
  induction deck as [| [d c] rest IH]; intros keep i slot prev; simpl.
  - lia.
  - assert (Hmono : (if S i <=? keep then 1 else 0) <= if i <=? keep then 1 else 0).
    { destruct (i <=? keep) eqn:E1, (S i <=? keep) eqn:E2; try lia.
      apply Nat.leb_le in E2. apply Nat.leb_gt in E1. lia. }
    destruct (flagged h c && negb (i =? keep)) eqn:E.
    + destruct (pickFamily slot prev _) as [f slot'] eqn:P. simpl.
      pose proof (pickFamily_not_plain slot prev
        (option_map (fun s => family (snd s)) (hd_error rest))) as Hp.
      rewrite P in Hp. simpl in Hp. rewrite Hp.
      specialize (IH keep (S i) slot' (Some f)).
      destruct (family_eqb (family c) plain && negb (isPlain c)); simpl; lia.
    + simpl. specialize (IH keep (S i) slot (Some (family c))).
      destruct (family_eqb (family c) plain) eqn:Ef; simpl; [| lia].
      destruct (isPlain c) eqn:Ep; simpl; [| lia].
      rewrite (plain_isPlain_flagged c Ef Ep) in E. simpl in E.
      apply negb_false_iff, Nat.eqb_eq in E. subst keep.
      rewrite Nat.leb_refl.
      replace (S i <=? i) with false in IH
        by (symmetry; apply Nat.leb_gt; lia).
      lia.
Qed.

Lemma plainCount_flagged (deck : list Classified) :
  plainCount deck <= unflaggedPlainCount deck + length (plainIndices h deck).
Proof.
  unfold plainCount, unflaggedPlainCount, plainIndices. generalize 0.
  induction deck as [| [d c] rest IH]; intros i; simpl.
  - lia.
  - specialize (IH (S i)).
    destruct (family_eqb (family c) plain) eqn:Ef; simpl.
    + destruct (isPlain c) eqn:Ep; simpl.
      * rewrite (plain_isPlain_flagged c Ef Ep). simpl. lia.
      * destruct (flagged h c); simpl; lia.
    + destruct (flagged h c); simpl; lia.
Qed.

(** C1 (amended): Variety Enforcement leaves at most one plain slide
    among those flagged [isPlain]: every slide flagged before
    enforcement, except the kept one, ends with a non-plain family.
    Slides that have the plain family without the flag are left as they
    are, so the returned deck has at most one plain-family slide more
    than there were unflagged ones, and at most one when every
    plain-family slide was flagged. *)
Theorem C1_enforce_plain_bound :
  forall deck : list Classified,
    length (enforce h deck) = length deck
    /\ (forall i d c,
          nth_error deck i = Some (d, c) -> isPlain c = true ->
          kept h deck <> Some i ->
          exists d' c',
            nth_error (enforce h deck) i = Some (d', c') /\ family c' <> plain)
    /\ (forall i d c,
          nth_error deck i = Some (d, c) -> isPlain c = false ->
          nth_error (enforce h deck) i = Some (d, c))
    /\ plainCount (enforce h deck) <= unflaggedPlainCount deck + 1
    /\ (unflaggedPlainCount deck = 0 -> plainCount (enforce h deck) <= 1).
Proof.
  intros deck.
  assert (Hcount : plainCount (enforce h deck) <= unflaggedPlainCount deck + 1).
  { unfold enforce. destruct (length (plainIndices h deck) <=? 1) eqn:E.
    - apply Nat.leb_le in E. pose proof (plainCount_flagged deck). lia.
    - destruct (kept h deck) as [keep |] eqn:Kp.
      + pose proof (redesign_plainCount deck keep 0 0 None) as H.
        simpl in H. exact H.
      + apply Nat.leb_gt in E. unfold kept in Kp.
        destruct (keptFrom h 0 deck) as [[k r] |] eqn:K; [discriminate |].
        apply keptFrom_None in K. unfold plainIndices in E.
        rewrite K in E. simpl in E. lia. }
  split; [| split; [| split; [| split; [exact Hcount | lia]]]].
  - unfold enforce. destruct (length (plainIndices h deck) <=? 1); [reflexivity |].
    destruct (kept h deck); [apply redesign_length | reflexivity].
  - intros i d c Hn Hp Hk.
    assert (Hfam : flagged h c = false -> family c <> plain).
    { intros Hf Heq. apply family_eqb_eq in Heq.
      rewrite (plain_isPlain_flagged c Heq Hp) in Hf. discriminate. }
    unfold enforce. destruct (length (plainIndices h deck) <=? 1) eqn:E.
    + exists d, c. split; [exact Hn |].
      destruct (flagged h c) eqn:Hf; [| now apply Hfam].
      exfalso. apply Hk. apply Nat.leb_le in E.
      pose proof (plainIndicesFrom_In deck 0 i d c Hn Hf) as Hin. simpl in Hin.
      unfold kept. fold (plainIndices h deck) in Hin.
      destruct (keptFrom h 0 deck) as [[k r] |] eqn:K.
      * apply keptFrom_In in K. fold (plainIndices h deck) in K.
        destruct (plainIndices h deck) as [| a [| b l]]; simpl in *;
          [contradiction | | lia].
        destruct Hin as [<- | []]. destruct K as [<- | []]. reflexivity.
      * apply keptFrom_None in K. fold (plainIndices h deck) in K.
        rewrite K in Hin. contradiction.
    + destruct (kept h deck) as [keep |] eqn:K.
      * destruct (redesign_nth deck keep 0 0 None i d c Hn) as [H1 H2].
        destruct (flagged h c) eqn:Hf.
        -- destruct H1 as [d' [f [Hn' Hf']]]; [reflexivity | |].
           ++ simpl. intros ->. now apply Hk.
           ++ exists d', (mkClassification false f). split; [exact Hn' |].
              simpl. intros ->. discriminate.
        -- exists d, c. split; [apply H2; now left | now apply Hfam].
      * exists d, c. split; [exact Hn |].
        destruct (flagged h c) eqn:Hf; [| now apply Hfam].
        exfalso. unfold kept in K.
        destruct (keptFrom h 0 deck) as [[k r] |] eqn:K'; [discriminate |].
        apply keptFrom_None in K'.
        pose proof (plainIndicesFrom_In deck 0 i d c Hn Hf) as Hin.
        rewrite K' in Hin. contradiction.
  - intros i d c Hn Hp. unfold enforce.
    destruct (length (plainIndices h deck) <=? 1); [exact Hn |].
    destruct (kept h deck) as [keep |]; [| exact Hn].
    apply (redesign_nth deck keep 0 0 None i d c Hn). left.
    unfold flagged. now rewrite Hp.
Qed.

(** A deck classifies into as many plain-family slides without the
    [isPlain] flag as it has bare slides on a background that is not
    solid: with no body block no signal of 4.2 fires, whatever the
    heuristics. *)
Lemma classify_bare_not_solid (d : SlideDescriptor) :
  bodyBlocks d = [] -> index d <> 0 -> forceHero d = false ->
  backgroundMode d <> M_solid ->
  snd (classify h d) = mkClassification false plain.
Proof.
  intros Hb Hi Hf Hm. unfold classify, isPlainOf, inferFamily. simpl.
  unfold sig_hero, sig_imageFeature, sig_cards, sig_timeline,
    sig_quoteBlock, sig_twoColumn.
  rewrite Hb, Hf. apply Nat.eqb_neq in Hi. rewrite Hi. simpl.
  destruct (backgroundMode d); try reflexivity. contradiction.
Qed.

End VarietyEnforcement.

Section VarietyExamples.

Import Pipeline.

Local Open Scope nat_scope.

Lemma C7_enforce_idempotent_witness :
  let h := Examples.heuristicsWith true in
  let deck := classifyDeck h [ Examples.headlineOnly 0; Examples.paragraph 1;
                               Examples.headlineOnly 2 ] in
  length (plainIndices h deck) <= 1 /\ enforce h deck = deck.
Proof.
  cbv zeta. split.
  - vm_compute. lia.
  - apply (proj2 (C7_enforce_idempotent (Examples.heuristicsWith true) _)).
    vm_compute. lia.
Defined.

Lemma C1_enforce_plain_bound_witness :
  let h := Examples.heuristicsWith true in
  let deck := classifyDeck h [ Examples.headlineOnly 0; Examples.headlineOnly 1;
                               Examples.statistics 2; Examples.headlineOnly 3 ] in
  unflaggedPlainCount deck = 0 /\ plainCount (enforce h deck) <= 1.
Proof.
  cbv zeta. split.
  - reflexivity.
  - apply (proj2 (proj2 (proj2 (proj2 (C1_enforce_plain_bound
                                         (Examples.heuristicsWith true) _))))).
    reflexivity.
Defined.

(** C1, as stated, fails: two slides whose family is the fallback
    [plain] without being flagged [isPlain] (a headline on a gradient,
    a headline over a paragraph) pass through enforcement untouched,
    under either reading of the hero exemption. *)
Lemma C1_counterexample_unflagged_plain :
  let slides := [ Examples.headlineOnly 0; Examples.headlineOnGradient 1;
                  Examples.paragraph 2 ] in
  let classes := [ mkClassification true hero; mkClassification false plain;
                   mkClassification false plain ] in
  let h := Examples.heuristicsWith true in
  let h' := Examples.heuristicsWith false in
  (map snd (classifyDeck h slides) = classes
   /\ enforce h (classifyDeck h slides) = classifyDeck h slides
   /\ plainCount (enforce h (classifyDeck h slides)) = 2
   /\ ~ plainCount (enforce h (classifyDeck h slides)) <= 1)
  /\ (map snd (classifyDeck h' slides) = classes
      /\ enforce h' (classifyDeck h' slides) = classifyDeck h' slides
      /\ plainCount (enforce h' (classifyDeck h' slides)) = 2
      /\ ~ plainCount (enforce h' (classifyDeck h' slides)) <= 1).
Proof.
  cbv zeta. split; (split; [reflexivity |]; split; [reflexivity |];
                    split; [reflexivity | vm_compute; lia]).
Qed.

(** The scenario of section 8: of ten slides, 0, 2, 5, 7 and 9 are
    plain; slide 0 is hero, slide 2 is kept, and 5, 7 and 9 are
    redesigned into three distinct families, none shared with a
    neighbour. *)
Example ten_slides_scenario :
  let h := Examples.heuristicsWith true in
  let deck := classifyDeck h Examples.tenSlides in
  plainIndices h deck = [2; 5; 7; 9]
  /\ kept h deck = Some 2
  /\ map (fun s => family (snd s)) (enforce h deck)
     = [ hero; cards; plain; plain; cards; twoColumn; plain; timeline;
         cards; quoteBlock ].
Proof. repeat split; reflexivity. Qed.

End VarietyExamples.

(** ** Fit Validator (specification, section 4.5) *)

Section FitValidation.

Import FitValidator.

Local Open Scope Q_scope.

Variable cfg : FitConfig.

Lemma inject_S (n : nat) :
  inject_Z (Z.of_nat (S n)) == inject_Z (Z.of_nat n) + 1.
Proof.
  rewrite Nat2Z.inj_succ. unfold Z.succ. rewrite inject_Z_plus. reflexivity.
Qed.

Lemma shrinkLoop_enough (blocks : list LayoutBlock) :
  valid cfg ->
  forall fuel scale steps,
    scale <= floor cfg + inject_Z (Z.of_nat fuel) * delta cfg ->
    exists r, shrinkLoop cfg fuel blocks scale steps = Some r.
Proof.
  intros [Hf0 [Hf1 [Hfl0 Hfl1]]].
  induction fuel as [| fuel IH]; intros scale steps Hs.
  - simpl. destruct (fits cfg blocks scale); [eauto |].
    destruct (Qle_bool scale (floor cfg)) eqn:E; [eauto |].
    exfalso. assert (Hle : scale <= floor cfg).
    { change (inject_Z (Z.of_nat 0)) with 0 in Hs. lra. }
    apply Qle_bool_iff in Hle. congruence.
  - simpl. destruct (fits cfg blocks scale); [eauto |].
    destruct (Qle_bool scale (floor cfg)) eqn:E; [eauto |].
    apply IH.
    assert (Hgt : floor cfg < scale).
    { apply Qnot_le_lt. intros Hle. apply Qle_bool_iff in Hle. congruence. }
    rewrite inject_S in Hs. unfold delta in *.
    apply Q.max_lub.
    + assert (0 <= inject_Z (Z.of_nat fuel)).
      { change 0 with (inject_Z 0). rewrite <- Zle_Qle. lia. }
      nra.
    + nra.
Qed.

Lemma shrinkBound_enough :
  valid cfg ->
  1 <= floor cfg + inject_Z (Z.of_nat (shrinkBound cfg)) * delta cfg.
Proof.
  intros [Hf0 [Hf1 [Hfl0 Hfl1]]]. unfold shrinkBound.
  set (x := (1 - floor cfg) / delta cfg).
  assert (Hd : 0 < delta cfg) by (unfold delta; nra).
  assert (Hx : x * delta cfg == 1 - floor cfg).
  { unfold x. field. lra. }
  assert (Hx0 : 0 <= x).
  { apply Qmult_le_r with (z := delta cfg); [exact Hd |]. rewrite Hx. lra. }
  pose proof (Qle_ceiling x) as Hc.
  assert (Hc0 : (0 <= Qceiling x)%Z).
  { rewrite Zle_Qle. change (inject_Z 0) with 0. lra. }
  rewrite Z2Nat.id by exact Hc0.
  assert (x * delta cfg <= inject_Z (Qceiling x) * delta cfg).
  { apply Qmult_le_compat_r; lra. }
  lra.
Qed.

Lemma shrinkLoop_steps (blocks : list LayoutBlock) :
  forall fuel scale steps scale' fit steps',
    shrinkLoop cfg fuel blocks scale steps = Some (scale', fit, steps') ->
    (steps' <= steps + fuel)%nat.
Proof.
  induction fuel as [| fuel IH]; intros scale steps scale' fit steps' H;
    simpl in H;
    destruct (fits cfg blocks scale);
    try (injection H as <- <- <-; lia);
    destruct (Qle_bool scale (floor cfg));
    try (injection H as <- <- <-; lia).
  - discriminate.
  - apply IH in H. lia.
Qed.

Lemma shrinkLoop_result (blocks : list LayoutBlock) :
  forall fuel scale steps scale' fit steps',
    shrinkLoop cfg fuel blocks scale steps = Some (scale', fit, steps') ->
    fit = fits cfg blocks scale'
    /\ (fit = false -> scale' <= floor cfg)
    /\ (floor cfg <= scale -> floor cfg <= scale').
Proof.
  induction fuel as [| fuel IH]; intros scale steps scale' fit steps' H;
    simpl in H;
    destruct (fits cfg blocks scale) eqn:Ef;
    try (injection H as <- <- <-; repeat split; auto; discriminate);
    destruct (Qle_bool scale (floor cfg)) eqn:El;
    try (injection H as <- <- <-; repeat split; auto;
         intros _; now apply Qle_bool_iff).
  - discriminate.
  - apply IH in H. destruct H as [H1 [H2 H3]]. repeat split; auto.
    intros _. apply H3. apply Q.le_max_l.
Qed.

Lemma shrinkLoop_more_fuel (blocks : list LayoutBlock) :
  forall fuel fuel' scale steps r,
    (fuel <= fuel')%nat ->
    shrinkLoop cfg fuel blocks scale steps = Some r ->
    shrinkLoop cfg fuel' blocks scale steps = Some r.
Proof.
  induction fuel as [| fuel IH]; intros fuel' scale steps r Hle H.
  - destruct fuel'; [exact H |]. simpl in *.
    destruct (fits cfg blocks scale); [exact H |].
    destruct (Qle_bool scale (floor cfg)); [exact H | discriminate].
  - destruct fuel' as [| fuel']; [lia |]. simpl in *.
    destruct (fits cfg blocks scale); [exact H |].
    destruct (Qle_bool scale (floor cfg)); [exact H |].
    apply IH; [lia | exact H].
Qed.

Lemma truncateLast_body (blocks blocks' : list LayoutBlock) :
  truncateLast cfg blocks = Some blocks' ->
  body blocks <> [] /\ length blocks' = length blocks.
Proof.
  revert blocks'. induction blocks as [| b rest IH]; intros blocks' H; simpl in H.
  - discriminate.
  - unfold body in *. simpl.
    destruct (truncateLast cfg rest) as [rest' |].
    + injection H as <-. destruct (IH rest' eq_refl) as [Hb Hl]. split.
      * destruct (is_body b); [discriminate | exact Hb].
      * simpl. now rewrite Hl.
    + destruct (is_body b); [| discriminate].
      injection H as <-. split; [discriminate | reflexivity].
Qed.

Lemma nudgeLoop_attempts (axis : Axis) (a : Box) :
  forall attempts b used b' clear used',
    nudgeLoop cfg attempts axis a b used = (b', clear, used') ->
    (used' <= used + attempts)%nat.
Proof.
  induction attempts as [| attempts IH]; intros b used b' clear used' H;
    simpl in H; destruct (negb (intersects cfg a b));
    try (injection H as <- <- <-; lia).
  apply IH in H. lia.
Qed.

Lemma settle_attempts (axis : Axis) :
  forall earlier b b' pairs n,
    settle cfg axis earlier b = (b', pairs, n) ->
    (n <= maxNudges cfg * length earlier)%nat.
Proof.
  induction earlier as [| a rest IH]; intros b b' pairs n H; simpl in H.
  - injection H as <- <- <-. lia.
  - destruct (intersects cfg (box a) (box b)).
    + destruct (nudgeLoop cfg (maxNudges cfg) axis (box a) (box b) 0)
        as [[bx clear] used] eqn:N.
      destruct (settle cfg axis rest _) as [[b'' pairs'] n'] eqn:S.
      injection H as <- <- <-.
      apply nudgeLoop_attempts in N. apply IH in S. simpl. lia.
    + apply IH in H. simpl. lia.
Qed.

Lemma resolveOverlaps_attempts (axis : Axis) :
  forall todo placed blocks pairs n,
    resolveOverlaps cfg axis placed todo = (blocks, pairs, n) ->
    (n <= maxNudges cfg * (length todo * length placed + pairCount (length todo)))%nat.
Proof.
  induction todo as [| b rest IH]; intros placed blocks pairs n H; simpl in H.
  - injection H as <- <- <-. lia.
  - destruct (settle cfg axis placed b) as [[b' ps] m] eqn:S.
    destruct (resolveOverlaps cfg axis (placed ++ [b']) rest)
      as [[bs ps'] m'] eqn:R.
    injection H as <- <- <-.
    apply settle_attempts in S. apply IH in R.
    rewrite length_app in R. simpl in R. simpl. nia.
Qed.

(** C5: the Fit Validator terminates within a bounded number of shrink
    and nudge iterations, and reports [overflowing] only when the floor
    scale was reached with a non-empty body that still exceeds the
    slide.  The shrink loop stops by itself within [shrinkBound]
    reductions (more fuel changes nothing), the nudges number at most
    [maxNudges] for each pair of blocks, and an overflow report comes
    with the floor as applied scale, a body block, and blocks that do
    not fit at that scale. *)
Theorem C5_fit_validator_bounded :
  forall slide : ResolvedSlide,
    valid cfg ->
    exists slide' report trace,
      run cfg (shrinkBound cfg) slide = Some (slide', report, trace)
      /\ (forall fuel, (shrinkBound cfg <= fuel)%nat ->
                       run cfg fuel slide = Some (slide', report, trace))
      /\ (shrinkSteps trace <= shrinkBound cfg)%nat
      /\ (nudgeAttempts trace
          <= maxNudges cfg * pairCount (length (layoutBlocks slide)))%nat
      /\ floor cfg <= appliedShrinkFactor report
      /\ (overflowing report = true ->
          appliedShrinkFactor report == floor cfg
          /\ body (layoutBlocks slide) <> []
          /\ fits cfg (layoutBlocks slide) (appliedShrinkFactor report) = false
          /\ exists cut,
               truncateLast cfg (layoutBlocks slide) = Some cut
               /\ fits cfg cut (appliedShrinkFactor report) = false).
Proof.
  intros slide Hv.
  destruct (shrinkLoop_enough (layoutBlocks slide) Hv (shrinkBound cfg) 1 0
              (shrinkBound_enough Hv)) as [[[scale fit] steps] Hs].
  pose proof (shrinkLoop_steps _ _ _ _ _ _ _ Hs) as Hsteps.
  pose proof (shrinkLoop_result _ _ _ _ _ _ _ Hs) as [Hfit [Hfloor Hge]].
  assert (Hrun : forall fuel, (shrinkBound cfg <= fuel)%nat ->
            run cfg fuel slide = run cfg (shrinkBound cfg) slide).
  { intros fuel Hle. unfold run.
    rewrite (shrinkLoop_more_fuel _ _ _ _ _ _ Hle Hs), Hs. reflexivity. }
  unfold run in *. rewrite Hs in *.
  set (tr := if fit then (layoutBlocks slide, false)
             else match truncateLast cfg (layoutBlocks slide) with
                  | Some blocks' => (blocks', negb (fits cfg blocks' scale))
                  | None => (layoutBlocks slide, false)
                  end) in *.
  assert (Htr : length (fst tr) = length (layoutBlocks slide)
                /\ (snd tr = true ->
                    fit = false /\ body (layoutBlocks slide) <> []
                    /\ exists cut,
                         truncateLast cfg (layoutBlocks slide) = Some cut
                         /\ fits cfg cut scale = false)).
  { unfold tr. destruct fit; [split; [reflexivity | discriminate] |].
    destruct (truncateLast cfg (layoutBlocks slide)) as [blocks' |] eqn:T.
    - pose proof (truncateLast_body _ _ T) as [Tb Tl].
      split; [exact Tl |]. simpl. intros Hn. apply negb_true_iff in Hn.
      repeat split; auto. now exists blocks'.
    - split; [reflexivity | discriminate]. }
  destruct tr as [blocks overflow]. simpl in Htr. destruct Htr as [Hlen Hov].
  set (ov := if positioned (family slide)
             then resolveOverlaps cfg (layoutAxis cfg (family slide)) [] blocks
             else (blocks, [], 0%nat)) in *.
  assert (Hn : (snd ov <= maxNudges cfg * pairCount (length (layoutBlocks slide)))%nat).
  { unfold ov. destruct (positioned (family slide)); [| simpl; lia].
    destruct (resolveOverlaps cfg _ [] blocks) as [[bs ps] n] eqn:R.
    apply resolveOverlaps_attempts in R. simpl in *. rewrite Hlen in R.
    rewrite Nat.mul_0_r in R. exact R. }
  destruct ov as [[blocks' pairs] nudges]. simpl in Hn.
  eexists. eexists. eexists. split; [reflexivity |].
  split; [exact Hrun |]. simpl.
  split; [lia |]. split; [exact Hn |]. split.
  - apply Hge. destruct Hv as [_ [_ [_ H1]]]. exact H1.
  - intros Ho. destruct (Hov Ho) as [Hf [Hb Hcut]]. subst fit.
    assert (Hle : scale <= floor cfg) by auto.
    assert (Hge' : floor cfg <= scale).
    { apply Hge. destruct Hv as [_ [_ [_ H1]]]. exact H1. }
    split; [lra |]. split; [exact Hb |]. split; [now symmetry | exact Hcut].
Qed.

End FitValidation.

Section FitExamples.

Import FitValidator.

Lemma fitConfig_valid : valid Examples.fitConfig.
Proof. unfold valid. simpl. repeat split; reflexivity || discriminate. Qed.

Lemma C5_fit_validator_bounded_witness :
  valid Examples.fitConfig
  /\ exists slide' report trace,
       run Examples.fitConfig (shrinkBound Examples.fitConfig)
           (Examples.fitSlide 400) = Some (slide', report, trace)
       /\ (shrinkSteps trace <= shrinkBound Examples.fitConfig)%nat.
Proof.
  split; [exact fitConfig_valid |].
  destruct (C5_fit_validator_bounded Examples.fitConfig (Examples.fitSlide 400)
              fitConfig_valid)
    as [slide' [report [trace [Hrun [_ [Hsteps _]]]]]].
  exists slide', report, trace. split; [exact Hrun | exact Hsteps].
Defined.

(** The three outcomes on one slide with a growing body: it fits as it
    is, it fits after six reductions, it still overflows at the floor
    after the last body block was cut. *)
Example fit_outcomes :
  let report := fun n =>
    option_map (fun r => (overflowing (snd (fst r)), shrinkSteps (snd r)))
               (run Examples.fitConfig (shrinkBound Examples.fitConfig)
                    (Examples.fitSlide n)) in
  shrinkBound Examples.fitConfig = 14%nat
  /\ report 50%nat = Some (false, 0%nat)
  /\ report 100%nat = Some (false, 6%nat)
  /\ report 400%nat = Some (true, 10%nat).
Proof. cbv zeta. repeat split; vm_compute; reflexivity. Qed.

End FitExamples.

(** * Further properties of the front end *)

(** ** Style resolution, beyond the registered themes *)

Section StyleResolutionMore.

Import Theme ThemeUtils.

(** X1: for a slide type and a primary colour that convert to a string
    (the type is used as a property key, the colour in a template
    literal), [generateSlideStyles] returns exactly on the themes that
    have the four groups [colors], [fonts], [gradients] and [patterns]
    (none of them [null] or [undefined]); which type it is plays no part
    in that, and a missing role inside a group does not make it throw. *)
Theorem generateSlideStyles_needs_four_groups :
  forall theme type : value,
    convertible type = true ->
    (forall primary, get2 theme "colors" "primary" = Ok primary ->
                     convertible primary = true) ->
    returns (generateSlideStyles theme type) = true
    <-> (forall group, In group requiredGroups -> has_group theme group = true).
Proof.
  intros theme type _ _. rewrite generateSlideStyles_returns.
  apply forallb_forall.
Qed.

Lemma generateSlideStyles_needs_four_groups_witness :
  convertible (VStr "quote") = true
  /\ returns (generateSlideStyles Examples.completeTheme (VStr "quote")) = true
  /\ returns (generateSlideStyles Examples.noAccent (VStr "quote")) = false.
Proof.
  split; [reflexivity |]. split.
  - apply (generateSlideStyles_needs_four_groups
             Examples.completeTheme (VStr "quote") eq_refl).
    + intros primary H. injection H as <-. reflexivity.
    + intros group Hin. simpl in Hin.
      destruct Hin as [<- | [<- | [<- | [<- | []]]]]; reflexivity.
  - reflexivity.
Defined.

Lemma get_at_slideTypes (a b c d e : value) (k : string) :
  existsb (String.eqb k) slideTypeNames = false ->
  is_inherited_name k = false ->
  get (VObj [ ("title", a); ("section", b); ("content", c);
              ("image", d); ("quote", e) ]) k = Ok VUndef.
Proof.
  intros Hk Hi. rewrite get_VObj.
  unfold slideTypeNames in Hk. cbn [existsb] in Hk.
  repeat (apply orb_false_iff in Hk; destruct Hk as [?E Hk]).
  cbn [assoc].
  repeat match goal with
         | H : (k =? ?s) = false |- context [ ?s =? k ] =>
             rewrite (String.eqb_sym s k), H
         end.
  now rewrite inherited_unknown.
Qed.

(** X2: a slide type that converts to a string and names none of the
    five entries of [slideTypes] (and no member of [Object.prototype])
    is resolved as ['content'], on every theme. *)
Theorem generateSlideStyles_unknown_type_is_content :
  forall (theme type : value),
    convertible type = true ->
    let k := to_string (default_arg type (VStr "default")) in
    existsb (String.eqb k) slideTypeNames = false ->
    is_inherited_name k = false ->
    generateSlideStyles theme type = generateSlideStyles theme (VStr "content").
Proof.
  intros theme type _ k Hk Hi. unfold generateSlideStyles. step_binds.
  unfold get_at. fold k. rewrite (get_at_slideTypes _ _ _ _ _ k Hk Hi).
  reflexivity.
Qed.

Lemma generateSlideStyles_unknown_type_is_content_witness :
  generateSlideStyles Examples.completeTheme (VStr "standard")
  = generateSlideStyles Examples.completeTheme (VStr "content")
  /\ generateSlideStyles Examples.completeTheme VNull
     = generateSlideStyles Examples.completeTheme (VStr "content")
  /\ returns (generateSlideStyles Examples.completeTheme (VStr "standard")) = true.
Proof.
  split; [| split; [| reflexivity]].
  - exact (generateSlideStyles_unknown_type_is_content
             Examples.completeTheme (VStr "standard") eq_refl eq_refl eq_refl).
  - exact (generateSlideStyles_unknown_type_is_content
             Examples.completeTheme VNull eq_refl eq_refl eq_refl).
Defined.

End StyleResolutionMore.

Section StyleEntries.

Import Theme ThemeUtils.

(** X3: whatever the slide type, the resolved style carries the theme's
    body font, and its text colour is white for ['title'] and
    ['section'] and the theme's text colour for every other type. *)
Theorem generateSlideStyles_font_and_colour :
  forall (theme type r : value),
    let k := to_string (default_arg type (VStr "default")) in
    is_inherited_name k = false ->
    generateSlideStyles theme type = Ok r ->
    get r "fontFamily" = get2 theme "fonts" "body"
    /\ get r "color"
       = if (k =? "title") || (k =? "section") then Ok (VStr "#ffffff")
         else get2 theme "colors" "text".
Proof.
  intros theme type r k Hi H. unfold generateSlideStyles in H.
  apply bind_Ok_inv in H. destruct H as [background [_ H]].
  apply bind_Ok_inv in H. destruct H as [color [Hcolor H]].
  apply bind_Ok_inv in H. destruct H as [fontFamily [Hfont H]].
  rewrite Hcolor, Hfont.
  repeat match type of H with
         | bind (get2 _ _ _) _ = Ok _ =>
             apply bind_Ok_inv in H; destruct H as [? [_ H]]
         end.
  unfold get_at in H. fold k in H. rewrite get_VObj in H. cbn [assoc bind] in H.
  rewrite (String.eqb_sym k "title"), (String.eqb_sym k "section").
  destruct ("title" =? k) eqn:E1.
  { cbn [truthy] in H. injection H as <-. split; reflexivity. }
  destruct ("section" =? k) eqn:E2.
  { cbn [truthy] in H. injection H as <-. split; reflexivity. }
  destruct ("content" =? k) eqn:E3.
  { cbn [truthy] in H. injection H as <-. split; reflexivity. }
  destruct ("image" =? k) eqn:E4.
  { cbn [truthy] in H. injection H as <-. split; reflexivity. }
  destruct ("quote" =? k) eqn:E5.
  { cbn [truthy] in H. injection H as <-. split; reflexivity. }
  rewrite inherited_unknown in H by exact Hi. cbn [truthy] in H.
  rewrite get_VObj in H. injection H as <-. split; reflexivity.
Qed.

Lemma generateSlideStyles_font_and_colour_witness :
  exists r,
    generateSlideStyles Examples.completeTheme (VStr "title") = Ok r
    /\ get r "fontFamily" = Ok (VStr "Inter")
    /\ get r "color" = Ok (VStr "#ffffff").
Proof.
  eexists. split; [reflexivity |].
  exact (generateSlideStyles_font_and_colour
           Examples.completeTheme (VStr "title") _ eq_refl eq_refl).
Defined.

End StyleEntries.

(** ** Theme application as a themed copy *)

Section ThemedCopy.

Import Theme ThemeUtils.

Lemma set_same (k : string) (v : value) (props : list (string * value)) :
  assoc k props = Some v -> set k v props = props.
Proof.
  induction props as [| [k' v'] props IH]; simpl; intros H.
  - discriminate.
  - destruct (k' =? k) eqn:E.
    + apply String.eqb_eq in E. injection H as ->. now subst k'.
    + f_equal. now apply IH.
Qed.

(** Reading a key that is neither [length] nor inherited gives the own
    enumerable property, or [undefined]. *)
Lemma get_own_enumerable (v : value) (k : string) :
  nullish v = false -> k <> "length" -> is_inherited_name k = false ->
  get v k = Ok (match assoc k (own_enumerable v) with
                | Some x => x
                | None => VUndef
                end).
Proof.
  intros Hn Hl Hi. unfold get.
  rewrite (own_enumerable_spec v k Hl), (inherited_unknown v k Hi).
  destruct v; try discriminate; now destruct (assoc k _).
Qed.

Lemma get_returns_not_nullish (v x : value) (k : string) :
  get v k = Ok x -> nullish v = false.
Proof. destruct v; simpl; intros H; try discriminate; reflexivity. Qed.

Lemma get_throws_nullish (v : value) (k : string) (e : error) :
  get v k = Throw e -> nullish v = true.
Proof.
  intros H. destruct (nullish v) eqn:Hn; [reflexivity |].
  destruct (get_not_nullish v k Hn) as [x Hx]. congruence.
Qed.

(** X4: a slide that theme application returns is the input slide with
    two fields set: [styles] is the style resolved for the slide's own
    [type], and [transition] is the fade transition.  No other own field
    is added, dropped or changed. *)
Theorem applyThemeToSlide_themed_copy :
  forall (slide theme r : value),
    applyThemeToSlide slide theme = Ok r ->
    exists props type styles fade,
      r = VObj props
      /\ get slide "type" = Ok type
      /\ generateSlideStyles theme type = Ok styles
      /\ assoc "styles" props = Some styles
      /\ get (generateTransitionStyles theme) "fade" = Ok fade
      /\ assoc "transition" props = Some fade
      /\ forall k, k <> "styles" -> k <> "transition" ->
                   assoc k props = assoc k (own_enumerable slide).
Proof.
  unfold applyThemeToSlide. intros slide theme r H.
  apply bind_Ok_inv in H. destruct H as [t [Ht H]].
  apply bind_Ok_inv in H. destruct H as [styles [Hst H]].
  apply bind_Ok_inv in H. destruct H as [fade [Hf H]].
  injection H as <-. eexists. exists t, styles, fade.
  split; [reflexivity |]. split; [exact Ht |]. split; [exact Hst |]. split.
  - rewrite assoc_set_neq by discriminate. apply assoc_set_eq.
  - split; [exact Hf |]. split; [apply assoc_set_eq |].
    intros k Hs Htr. rewrite !assoc_set_neq; auto.
Qed.

Lemma applyThemeToSlide_themed_copy_witness :
  exists r props,
    applyThemeToSlide Examples.introSlide Examples.completeTheme = Ok r
    /\ r = VObj props
    /\ assoc "title" props = assoc "title" (own_enumerable Examples.introSlide).
Proof.
  eexists. 
  destruct (applyThemeToSlide_themed_copy
              Examples.introSlide Examples.completeTheme _ eq_refl)
    as [props [type [styles [fade [Hr [_ [_ [_ [_ [_ Hframe]]]]]]]]]].
  exists props. split; [reflexivity |]. split; [exact Hr |].
  apply Hframe; discriminate.
Defined.

Lemma applyThemeToSlide_again (slide theme r : value) :
  applyThemeToSlide slide theme = Ok r -> applyThemeToSlide r theme = Ok r.
Proof.
  unfold applyThemeToSlide. intros H.
  apply bind_Ok_inv in H. destruct H as [t [Ht H]].
  apply bind_Ok_inv in H. destruct H as [styles [Hst H]].
  apply bind_Ok_inv in H. destruct H as [fade [Hf H]].
  injection H as <-.
  assert (Hn : nullish slide = false) by (eapply get_returns_not_nullish; eauto).
  rewrite get_own_enumerable in Ht by (reflexivity || discriminate || exact Hn).
  rewrite get_VObj, !assoc_set_neq by discriminate.
  rewrite inherited_unknown by reflexivity.
  injection Ht as Ht. rewrite Ht. cbn [bind]. rewrite Hst. cbn [bind].
  rewrite Hf. cbn [bind own_enumerable]. f_equal. f_equal.
  rewrite (set_same "styles" styles).
  - apply set_same, assoc_set_eq.
  - rewrite assoc_set_neq by discriminate. apply assoc_set_eq.
Qed.

(** X5: theme application to a slide is idempotent: applying the same
    theme to a slide it has returned gives that slide back unchanged. *)
Theorem applyThemeToSlide_idempotent :
  forall (slide theme r : value),
    applyThemeToSlide slide theme = Ok r ->
    applyThemeToSlide r theme = Ok r.
Proof. intros slide theme r. apply applyThemeToSlide_again. Qed.

Lemma applyThemeToSlide_idempotent_witness :
  exists r,
    applyThemeToSlide Examples.introSlide Examples.completeTheme = Ok r
    /\ applyThemeToSlide r Examples.completeTheme = Ok r.
Proof.
  eexists. split; [reflexivity |].
  exact (applyThemeToSlide_idempotent
           Examples.introSlide Examples.completeTheme _ eq_refl).
Defined.

Lemma mapM_returns {A B : Type} (f : A -> result B) (l : list A) :
  returns (mapM f l) = forallb (fun a => returns (f a)) l.
Proof.
  induction l as [| a l IH]; simpl; [reflexivity |].
  destruct (f a); simpl; [| reflexivity].
  rewrite <- IH. now destruct (mapM f l).
Qed.

Lemma forallb_pointwise {A : Type} (f g : A -> bool) (l : list A) :
  (forall a, f a = g a) -> forallb f l = forallb g l.
Proof.
  intros H. induction l as [| a l IH]; simpl; [reflexivity |].
  now rewrite H, IH.
Qed.

Lemma mapM_fixed {A : Type} (f : A -> result A) (l : list A) :
  Forall (fun a => f a = Ok a) l -> mapM f l = Ok l.
Proof.
  induction 1 as [| a l Ha _ IH]; simpl; [reflexivity |].
  now rewrite Ha, IH.
Qed.

Lemma mapM_Forall {A B : Type} (f : A -> result B) (P : B -> Prop)
  (l : list A) (l' : list B) :
  (forall a b, f a = Ok b -> P b) -> mapM f l = Ok l' -> Forall P l'.
Proof.
  intros HP. revert l'. induction l as [| a l IH]; simpl; intros l' H.
  - injection H as <-. constructor.
  - apply bind_Ok_inv in H. destruct H as [b [Hb H]].
    apply bind_Ok_inv in H. destruct H as [bs [Hbs H]].
    injection H as <-. constructor; eauto.
Qed.

(** X6: a presentation that theme application returns carries the
    theme's name in [theme], the theme's base style in [styles], and in
    [slides] one themed slide per input slide, in the same order; every
    other own field is kept as it was. *)
Theorem applyThemeToPresentation_themed_copy :
  forall (presentation theme r : value),
    applyThemeToPresentation presentation theme = Ok r ->
    exists props old new,
      r = VObj props
      /\ get presentation "slides" = Ok (VArr old)
      /\ assoc "slides" props = Some (VArr new)
      /\ length new = length old
      /\ (forall i s, nth_error old i = Some s ->
            exists s', nth_error new i = Some s'
                       /\ applyThemeToSlide s theme = Ok s')
      /\ option_map Ok (assoc "theme" props) = Some (get theme "name")
      /\ (exists base, assoc "styles" props = Some base
            /\ get base "background" = get2 theme "colors" "background"
            /\ get base "color" = get2 theme "colors" "text"
            /\ get base "fontFamily" = get2 theme "fonts" "body")
      /\ forall k, k <> "slides" -> k <> "theme" -> k <> "styles" ->
                   assoc k props = assoc k (own_enumerable presentation).
Proof.
  intros presentation theme r H.
  destruct (applyThemeToPresentation_frame _ _ _ H)
    as [props [Hr [Hframe [old [new [Hold [Hnew [Hlen Hnth]]]]]]]].
  exists props, old, new.
  repeat (split; [assumption |]).
  unfold applyThemeToPresentation in H.
  apply bind_Ok_inv in H. destruct H as [slides0 [_ H]].
  apply bind_Ok_inv in H. destruct H as [slides [_ H]].
  apply bind_Ok_inv in H. destruct H as [name [Hname H]].
  apply bind_Ok_inv in H. destruct H as [bg [Hbg H]].
  apply bind_Ok_inv in H. destruct H as [fg [Hfg H]].
  apply bind_Ok_inv in H. destruct H as [ff [Hff H]].
  rewrite Hr in H. injection H as <-.
  rewrite Hname, Hbg, Hfg, Hff. split; [| split; [| exact Hframe]].
  - rewrite assoc_set_neq by discriminate. now rewrite assoc_set_eq.
  - eexists. split; [apply assoc_set_eq |]. repeat split; reflexivity.
Qed.

Lemma applyThemeToPresentation_themed_copy_witness :
  exists r props,
    applyThemeToPresentation Examples.deck Examples.completeTheme = Ok r
    /\ r = VObj props
    /\ assoc "title" props = assoc "title" (own_enumerable Examples.deck).
Proof.
  eexists.
  destruct (applyThemeToPresentation_themed_copy
              Examples.deck Examples.completeTheme _ eq_refl)
    as [props [old [new [Hr [_ [_ [_ [_ [_ [_ Hframe]]]]]]]]]].
  exists props. split; [reflexivity |]. split; [exact Hr |].
  apply Hframe; discriminate.
Defined.

(** X7: theme application to a presentation is idempotent as well:
    applying the same theme to its own result changes nothing, neither
    in the presentation nor in any of its slides. *)
Theorem applyThemeToPresentation_idempotent :
  forall (presentation theme r : value),
    applyThemeToPresentation presentation theme = Ok r ->
    applyThemeToPresentation r theme = Ok r.
Proof.
  intros presentation theme r H. unfold applyThemeToPresentation in *.
  apply bind_Ok_inv in H. destruct H as [slides0 [_ H]].
  apply bind_Ok_inv in H. destruct H as [slides [Hmap H]].
  apply bind_Ok_inv in H. destruct H as [name [Hname H]].
  apply bind_Ok_inv in H. destruct H as [bg [Hbg H]].
  apply bind_Ok_inv in H. destruct H as [fg [Hfg H]].
  apply bind_Ok_inv in H. destruct H as [ff [Hff H]].
  injection H as <-.
  rewrite get_VObj, !assoc_set_neq, assoc_set_eq by discriminate.
  cbn [bind].
  destruct slides0; try discriminate. simpl in Hmap.
  apply bind_Ok_inv in Hmap. destruct Hmap as [new [Hnew Hmap]].
  injection Hmap as <-. cbn [array_map].
  rewrite (mapM_fixed (fun slide => applyThemeToSlide slide theme) new).
  2:{ eapply mapM_Forall; [| exact Hnew].
      intros a b Hab. cbv beta in Hab. eapply applyThemeToSlide_again; eauto. }
  cbn [bind]. rewrite Hname, Hbg, Hfg, Hff. cbn [bind own_enumerable].
  f_equal. f_equal.
  rewrite (set_same "slides" (VArr new)).
  2:{ rewrite !assoc_set_neq by discriminate. apply assoc_set_eq. }
  rewrite (set_same "theme" name).
  2:{ rewrite assoc_set_neq by discriminate. apply assoc_set_eq. }
  apply set_same, assoc_set_eq.
Qed.

Lemma applyThemeToPresentation_idempotent_witness :
  exists r,
    applyThemeToPresentation Examples.deck Examples.completeTheme = Ok r
    /\ applyThemeToPresentation r Examples.completeTheme = Ok r.
Proof.
  eexists. split; [reflexivity |].
  exact (applyThemeToPresentation_idempotent
           Examples.deck Examples.completeTheme _ eq_refl).
Defined.

Lemma has_group_get2 (theme : value) (group k : string) :
  returns (get2 theme group k) = has_group theme group.
Proof.
  unfold get2, has_group. destruct (get theme group) as [g |]; [| reflexivity].
  cbn [bind]. destruct (nullish g) eqn:Ng.
  - destruct g; try discriminate; reflexivity.
  - now destruct (get_not_nullish g k Ng) as [? ->].
Qed.

Lemma returns_bind_andb {A B : Type} (c : result A) (f : A -> result B) (b : bool) :
  (forall a, c = Ok a -> returns (f a) = b) ->
  returns (bind c f) = returns c && b.
Proof. destruct c; simpl; intros H; [now apply H | reflexivity]. Qed.

Lemma applyThemeToPresentation_returns_eq :
  forall (presentation theme : value),
    returns (applyThemeToPresentation presentation theme)
    = match get presentation "slides" with
      | Ok (VArr slides) =>
          forallb (fun slide => negb (nullish slide)
                                && has_group theme "gradients"
                                && has_group theme "patterns") slides
          && has_group theme "colors" && has_group theme "fonts"
      | _ => false
      end.
Proof.
  intros presentation theme. unfold applyThemeToPresentation.
  destruct (get presentation "slides") as [slides0 |]; [| reflexivity].
  cbn [bind]. destruct slides0; try reflexivity.
  cbn [array_map].
  assert (Hslides :
    returns (mapM (fun slide => applyThemeToSlide slide theme) elems)
    = forallb (fun slide => negb (nullish slide)
                            && forallb (has_group theme) requiredGroups) elems).
  { rewrite mapM_returns. apply forallb_pointwise. intros s.
    rewrite applyThemeToSlide_returns.
    destruct (get s "type") as [t |] eqn:Et.
    - rewrite (get_returns_not_nullish _ _ _ Et).
      now rewrite generateSlideStyles_returns.
    - now rewrite (get_throws_nullish _ _ _ Et). }
  assert (Hrest : forall new : list value,
    returns (name <- get theme "name" ;;
             background <- get2 theme "colors" "background" ;;
             color <- get2 theme "colors" "text" ;;
             fontFamily <- get2 theme "fonts" "body" ;;
             Ok (VObj (set "styles"
                         (VObj [ ("background", background); ("color", color);
                                 ("fontFamily", fontFamily) ])
                      (set "theme" name
                      (set "slides" (VArr new) (own_enumerable presentation))))))
    = has_group theme "colors" && has_group theme "fonts").
  { intros new. rewrite returns_bind.
    destruct (get theme "name") as [name |] eqn:En.
    - pose proof (has_group_get2 theme "colors" "background") as Hc.
      pose proof (has_group_get2 theme "colors" "text") as Hc'.
      pose proof (has_group_get2 theme "fonts" "body") as Hf.
      rewrite returns_bind.
      destruct (get2 theme "colors" "background"); cbn [returns] in Hc;
        rewrite <- Hc in *; [| reflexivity].
      rewrite returns_bind.
      destruct (get2 theme "colors" "text"); cbn [returns] in Hc';
        [| discriminate].
      rewrite returns_bind.
      destruct (get2 theme "fonts" "body"); cbn [returns] in Hf;
        rewrite <- Hf; reflexivity.
    - apply get_throws_nullish in En.
      destruct theme; try discriminate; reflexivity. }
  assert (Hfull :
    forallb (fun slide => negb (nullish slide)
                          && forallb (has_group theme) requiredGroups) elems
    && has_group theme "colors" && has_group theme "fonts"
    = forallb (fun slide => negb (nullish slide)
                            && has_group theme "gradients"
                            && has_group theme "patterns") elems
      && has_group theme "colors" && has_group theme "fonts").
  { destruct (has_group theme "colors") eqn:Hc; [| now rewrite !andb_false_r].
    destruct (has_group theme "fonts") eqn:Hf; [| now rewrite !andb_false_r].
    rewrite !andb_true_r. apply forallb_pointwise. intros s.
    unfold requiredGroups. cbn [forallb]. rewrite Hc, Hf.
    destruct (nullish s), (has_group theme "gradients"),
      (has_group theme "patterns"); reflexivity. }
  rewrite <- Hfull, <- Hslides.
  destruct (mapM (fun slide => applyThemeToSlide slide theme) elems)
    as [new | e]; [| reflexivity].
  cbn [bind]. now rewrite Hrest.
Qed.

(** X8: on a presentation whose [slides] is an array, with slide types
    and a primary colour that convert to a string, theme application
    returns exactly when the theme has [colors] and [fonts] and, for
    every slide, the slide is not [null] or [undefined] and the theme
    also has [gradients] and [patterns].  A deck without slides needs
    [colors] and [fonts] only. *)
Theorem applyThemeToPresentation_returns :
  forall (presentation theme : value) (slides : list value),
    get presentation "slides" = Ok (VArr slides) ->
    (forall slide type, In slide slides -> get slide "type" = Ok type ->
                        convertible type = true) ->
    (forall primary, get2 theme "colors" "primary" = Ok primary ->
                     convertible primary = true) ->
    returns (applyThemeToPresentation presentation theme)
    = forallb (fun slide => negb (nullish slide)
                            && has_group theme "gradients"
                            && has_group theme "patterns") slides
      && has_group theme "colors" && has_group theme "fonts".
Proof.
  intros presentation theme slides Hslides _ _.
  rewrite applyThemeToPresentation_returns_eq. now rewrite Hslides.
Qed.

Lemma applyThemeToPresentation_returns_witness :
  returns (applyThemeToPresentation Examples.deck Examples.completeTheme) = true
  /\ returns (applyThemeToPresentation (VObj [ ("slides", VArr []) ])
                Theme.corporate_blue) = true.
Proof.
  split.
  - rewrite (applyThemeToPresentation_returns
               Examples.deck Examples.completeTheme
               [ Examples.introSlide; Examples.untypedSlide ] eq_refl).
    + reflexivity.
    + intros slide type Hin Ht. simpl in Hin.
      destruct Hin as [<- | [<- | []]]; injection Ht as <-; reflexivity.
    + intros primary H. injection H as <-. reflexivity.
  - rewrite (applyThemeToPresentation_returns
               (VObj [ ("slides", VArr []) ]) Theme.corporate_blue []
               eq_refl).
    + reflexivity.
    + intros slide type [].
    + intros primary H. injection H as <-. reflexivity.
Defined.

End ThemedCopy.

(** ** The active theme of the provider and of the hook *)

Section ActiveTheme.

Import Theme.

Lemma registered_truthy (id : string) (entry : value) :
  assoc id registered = Some entry ->
  truthy entry = true
  /\ ThemeUtils.has_group entry "colors" = true
  /\ ThemeUtils.has_group entry "fonts" = true
  /\ ThemeUtils.has_group entry "gradient" = true.
Proof.
  unfold registered, defaultThemes, own_enumerable. cbn [assoc]. intros E.
  repeat (destruct (_ =? id);
          [injection E as <-; repeat split; reflexivity |]).
  discriminate.
Qed.


(** X10: selecting and then reading the active theme.  For an
    identifier that is no inherited name, [switchTheme] followed by
    [theme] gives the registered entry when the identifier is a key of
    [defaultThemes] (any custom theme is dropped), and otherwise the
    active theme stays what it was before the call. *)
Theorem switchTheme_then_theme :
  forall (id : string) (st : ThemeState),
    is_inherited_name id = false ->
    exists st',
      ThemeContext.switchTheme (VStr id) st = Ok st'
      /\ UseTheme.switchTheme (VStr id) st = Ok st'
      /\ match assoc id registered with
         | Some entry =>
             st' = mkThemeState (VStr id) VNull
             /\ ThemeContext.theme st' = Ok entry
             /\ UseTheme.theme st' = Ok entry
         | None => st' = st
         end.
Proof.
  intros id st Hi.
  destruct (assoc id registered) as [entry |] eqn:E.
  - assert (Hreg : is_registered id = true)
      by (rewrite assoc_registered, E; reflexivity).
    destruct (switchTheme_registered id st Hreg) as [H1 H2].
    eexists. split; [exact H1 |]. split; [exact H2 |].
    split; [reflexivity |].
    unfold ThemeContext.theme, UseTheme.theme, get_at. cbn [customTheme truthy].
    cbn [currentTheme to_string]. rewrite get_defaultThemes, E. cbn [bind].
    destruct (registered_truthy id entry E) as [-> _]. split; reflexivity.
  - assert (Hreg : is_registered id = false)
      by (rewrite assoc_registered, E; reflexivity).
    destruct (switchTheme_unknown id st Hreg Hi) as [H1 H2].
    exists st. repeat split; assumption.
Qed.

Lemma switchTheme_then_theme_witness :
  exists st',
    ThemeContext.switchTheme (VStr "elegant_dark")
      (mkThemeState (VStr "nature_green") Examples.noAccent) = Ok st'
    /\ ThemeContext.theme st' = Ok elegant_dark.
Proof.
  destruct (switchTheme_then_theme "elegant_dark"
              (mkThemeState (VStr "nature_green") Examples.noAccent) eq_refl)
    as [st' [H1 [_ H3]]].
  exists st'. split; [exact H1 |]. exact (proj1 (proj2 H3)).
Defined.

Lemma gradient_or_returns (theme : value) (k a b : string) :
  ThemeUtils.has_group theme "colors" = true ->
  ThemeUtils.has_group theme "gradient" = true ->
  returns (gradient_or theme k a b) = true.
Proof.
  intros Hc Hg. unfold gradient_or.
  assert (Hn : nullish theme = false).
  { unfold ThemeUtils.has_group in Hc. destruct theme; try discriminate;
      reflexivity. }
  destruct (get_not_nullish theme "gradients" Hn) as [gs ->]. cbn [bind].
  assert (Ho : exists g, get_opt gs k = Ok g).
  { unfold get_opt. destruct (nullish gs) eqn:Ng.
    - destruct gs; try discriminate; eauto.
    - destruct (get_not_nullish gs k Ng) as [g Hg'].
      exists g. destruct gs; try discriminate; exact Hg'. }
  destruct Ho as [g ->]. cbn [bind].
  destruct (truthy g); [reflexivity |].
  rewrite <- (has_group_get2 theme "gradient" "angle") in Hg.
  pose proof (has_group_get2 theme "colors" a) as Ha.
  pose proof (has_group_get2 theme "colors" b) as Hb.
  rewrite Hc in Ha, Hb.
  destruct (get2 theme "gradient" "angle"); [| discriminate].
  destruct (get2 theme "colors" a); [| discriminate].
  destruct (get2 theme "colors" b); [| discriminate].
  reflexivity.
Qed.

Lemma getThemeVariables_returns_eq :
  forall theme : value,
    returns (getThemeVariables theme)
    = ThemeUtils.has_group theme "colors"
      && ThemeUtils.has_group theme "gradient"
      && ThemeUtils.has_group theme "fonts".
Proof.
  intros theme. unfold getThemeVariables.
  pose proof (fun k => has_group_get2 theme "colors" k) as Hc.
  pose proof (fun k => has_group_get2 theme "gradient" k) as Hg.
  pose proof (fun k => has_group_get2 theme "fonts" k) as Hf.
  pose proof (gradient_or_returns theme) as Hgo.
  destruct (ThemeUtils.has_group theme "colors").
  2:{ specialize (Hc "primary").
      destruct (get2 theme "colors" "primary"); [discriminate | reflexivity]. }
  repeat match goal with
         | |- returns (bind (get2 theme "colors" ?k) _) = _ =>
             let H := fresh in
             pose proof (Hc k) as H;
             destruct (get2 theme "colors" k); [| discriminate H];
             clear H; cbn [bind]
         end.
  destruct (ThemeUtils.has_group theme "gradient").
  2:{ specialize (Hg "angle").
      destruct (get2 theme "gradient" "angle"); [discriminate | reflexivity]. }
  specialize (Hg "angle").
  destruct (get2 theme "gradient" "angle"); [| discriminate]. cbn [bind].
  destruct (ThemeUtils.has_group theme "fonts").
  2:{ specialize (Hf "title").
      destruct (get2 theme "fonts" "title"); [discriminate | reflexivity]. }
  repeat match goal with
         | |- returns (bind (get2 theme "fonts" ?k) _) = _ =>
             let H := fresh in
             pose proof (Hf k) as H;
             destruct (get2 theme "fonts" k); [| discriminate H];
             clear H; cbn [bind]
         end.
  repeat match goal with
         | |- returns (bind (gradient_or theme ?k ?a ?b) _) = _ =>
             let H := fresh in
             pose proof (Hgo k a b eq_refl eq_refl) as H;
             destruct (gradient_or theme k a b); [| discriminate H];
             clear H; cbn [bind]
         end.
  reflexivity.
Qed.

(** X12: for a gradient angle and primary, secondary and accent colours
    that convert to a string (they are used in template literals),
    [getThemeVariables] returns exactly on the themes that have the
    groups [colors], [gradient] and [fonts].  The group [gradients] is
    optional here, unlike in [generateSlideStyles]: a missing gradient
    is replaced by a linear gradient built from the angle and two
    colours. *)
Theorem getThemeVariables_needs_three_groups :
  forall theme : value,
    (forall angle, get2 theme "gradient" "angle" = Ok angle ->
                   convertible angle = true) ->
    (forall role colour,
       In role [ "primary"; "secondary"; "accent" ] ->
       get2 theme "colors" role = Ok colour -> convertible colour = true) ->
    returns (getThemeVariables theme)
    = ThemeUtils.has_group theme "colors"
      && ThemeUtils.has_group theme "gradient"
      && ThemeUtils.has_group theme "fonts".
Proof. intros theme _ _. apply getThemeVariables_returns_eq. Qed.

Lemma getThemeVariables_needs_three_groups_witness :
  returns (getThemeVariables corporate_blue) = true
  /\ ThemeUtils.has_group corporate_blue "gradients" = false.
Proof.
  split; [| reflexivity].
  rewrite (getThemeVariables_needs_three_groups corporate_blue).
  - reflexivity.
  - intros angle H. injection H as <-. reflexivity.
  - intros role colour Hin H. simpl in Hin.
    destruct Hin as [<- | [<- | [<- | []]]]; injection H as <-; reflexivity.
Defined.

End ActiveTheme.

(** ** The hook of use-theme.js: paths, custom themes, layouts *)

Section HookValues.

Import Theme UseTheme.

Lemma split_dots_aux_app (a b acc : string) :
  split_dots_aux (a ++ "." ++ b) acc
  = (split_dots_aux a acc ++ split_dots_aux b EmptyString)%list.
Proof.
  revert acc. induction a as [| c a IH]; intros acc; simpl.
  - reflexivity.
  - destruct (Ascii.eqb c "."); simpl; now rewrite IH.
Qed.

Lemma walk_undefined (parts : list string) : walk VUndef parts = Ok VUndef.
Proof. destruct parts; reflexivity. Qed.

Lemma walk_app (l1 l2 : list string) :
  forall v : value,
    walk v (l1 ++ l2)%list = (v' <- walk v l1 ;; walk v' l2).
Proof.
  induction l1 as [| part rest IH]; intros v.
  - reflexivity.
  - assert (Hstep : forall v0 : value,
              (v' <- get v0 part ;; walk v' (rest ++ l2)%list)
              = (x <- (v' <- get v0 part ;; walk v' rest) ;; walk x l2)).
    { intros v0. destruct (get v0 part) as [v' |]; [apply IH | reflexivity]. }
    destruct v; cbn [walk app]; try apply Hstep.
    cbn [bind]. now rewrite walk_undefined.
Qed.

(** X14: paths compose.  Reading the path [a.b] is reading [a] and then
    reading [b] from what was found, for all paths [a] and [b]: the
    value is the same and so is the exception, if any. *)
Theorem getThemeValue_path_composition :
  forall (theme : value) (a b : string),
    getThemeValue theme (a ++ "." ++ b)
    = (found <- getThemeValue theme a ;; getThemeValue found b).
Proof.
  intros theme a b. unfold getThemeValue, split_dots.
  rewrite split_dots_aux_app. apply walk_app.
Qed.




Import Layouts.

(** X16: for a type that converts to a string and is no inherited
    name, [getLayout] always returns one of the three layouts, never
    [undefined]: for a type that is no layout name it is the [content]
    layout, and for each of the three names it is that name's own
    entry. *)
Theorem getLayout_falls_back_to_content :
  forall type : value,
    convertible type = true ->
    let k := to_string type in
    is_inherited_name k = false ->
    exists layout,
      getLayout type = Ok layout
      /\ In (Some layout) (map (fun n => assoc n (own_enumerable defaultLayouts))
                               layoutNames)
      /\ (if existsb (String.eqb k) layoutNames
          then assoc k (own_enumerable defaultLayouts) = Some layout
          else get defaultLayouts "content" = Ok layout).
Proof.
  intros type _ k Hi. unfold getLayout, get_at. fold k.
  unfold defaultLayouts at 1. rewrite get_VObj. cbn [assoc bind].
  unfold layoutNames, own_enumerable, defaultLayouts.
  cbn [existsb assoc map].
  rewrite (String.eqb_sym k "title"), (String.eqb_sym k "content"),
    (String.eqb_sym k "split").
  destruct ("title" =? k) eqn:E1.
  { eexists. split; [reflexivity |]. split; [now left | reflexivity]. }
  destruct ("content" =? k) eqn:E2.
  { eexists. split; [reflexivity |]. split; [right; now left | reflexivity]. }
  destruct ("split" =? k) eqn:E3.
  { eexists. split; [reflexivity |].
    split; [right; right; now left | reflexivity]. }
  rewrite inherited_unknown by exact Hi. cbn [truthy orb].
  eexists. split; [reflexivity |]. split; [right; now left | reflexivity].
Qed.

Lemma getLayout_falls_back_to_content_witness :
  exists layout,
    getLayout (VStr "timeline") = Ok layout
    /\ get defaultLayouts "content" = Ok layout.
Proof.
  destruct (getLayout_falls_back_to_content (VStr "timeline") eq_refl eq_refl)
    as [layout [H1 [_ H3]]].
  exists layout. split; [exact H1 | exact H3].
Defined.

End HookValues.

(** ** Rendering a whole deck *)

Section DeckRendering.

Import Presentation.

Lemma get_opt_total (v : value) (k : string) :
  exists x, get_opt v k = Ok x /\ (truthy x = true -> get v k = Ok x).
Proof.
  unfold get_opt. destruct (nullish v) eqn:Hn.
  - exists VUndef. destruct v; try discriminate; split; auto; discriminate.
  - destruct (get_not_nullish v k Hn) as [x Hx]. exists x.
    destruct v; try discriminate; auto.
Qed.

(** What [renderSlide] computes on a slide that can be read from. *)
Lemma renderSlide_shape (slide : value) (index : nat) :
  nullish slide = false ->
  exists type0 title content layout0 img col,
    get slide "type" = Ok type0
    /\ renderSlide slide index
       = Ok (mkSection index (default_arg type0 (VStr "standard"))
               "slide relative"
               (VObj [ ("backgroundImage",
                        if truthy img
                        then VStr ("url(" ++ to_string img ++ ")")
                        else VUndef);
                       ("backgroundColor",
                        if truthy col then col else VStr "rgb(249, 250, 251)");
                       ("backgroundSize", VStr "cover");
                       ("backgroundPosition", VStr "center");
                       ("height", VStr "100%");
                       ("width", VStr "100%");
                       ("scrollSnapAlign", VStr "start") ])
               ("slide-content p-12 "
                ++ getLayoutClasses (default_arg layout0 (VStr "default")))
               (if truthy title
                then H2 [ "font-sans"; "text-4xl md:text-6xl font-bold mb-8";
                          (if is_str (default_arg type0 (VStr "standard")) "title"
                           then "text-center" else EmptyString);
                          (if truthy img then "text-white drop-shadow-lg"
                           else "text-gray-900") ]
                        title
                else Raw title)
               [ "slide-body"; "font-sans"; "prose prose-lg max-w-none";
                 (if truthy img then "text-white prose-invert"
                  else "text-gray-700") ]
               content).
Proof.
  intros Hn. unfold renderSlide.
  destruct (get_not_nullish slide "type" Hn) as [type0 Ht].
  destruct (get_not_nullish slide "title" Hn) as [title Hti].
  destruct (get_not_nullish slide "content" Hn) as [content Hc].
  destruct (get_not_nullish slide "background" Hn) as [background Hb].
  destruct (get_not_nullish slide "layout" Hn) as [layout0 Hl].
  destruct (get_opt_total background "image") as [img [Himg Himg']].
  destruct (get_opt_total background "color") as [col [Hcol _]].
  exists type0, title, content, layout0, img, col.
  split; [exact Ht |].
  rewrite Ht, Hti, Hc, Hb, Hl. cbn [bind]. rewrite Himg, Hcol. cbn [bind].
  change (get2 CustomTheme "colors" "background")
    with (Ok (A := value) (VStr "rgb(249, 250, 251)")).
  change (get2 CustomTheme "fonts" "heading")
    with (Ok (A := value) (VStr "font-sans")).
  change (get2 CustomTheme "fonts" "body")
    with (Ok (A := value) (VStr "font-sans")).
  destruct (truthy img) eqn:Ti; [rewrite (Himg' eq_refl) |];
    destruct (truthy col); destruct (truthy title); reflexivity.
Qed.

Lemma renderSlide_returns (slide : value) (index : nat) :
  returns (renderSlide slide index) = negb (nullish slide).
Proof.
  destruct (nullish slide) eqn:Hn.
  - destruct slide; try discriminate; reflexivity.
  - destruct (renderSlide_shape slide index Hn)
      as [? [? [? [? [? [? [_ ->]]]]]]]. reflexivity.
Qed.

Lemma renderSlide_key (slide : value) (index : nat) (el : SectionEl) :
  renderSlide slide index = Ok el -> key el = index.
Proof.
  intros H.
  assert (Hn : nullish slide = false).
  { pose proof (renderSlide_returns slide index) as Hr. rewrite H in Hr.
    now destruct (nullish slide). }
  destruct (renderSlide_shape slide index Hn)
    as [? [? [? [? [? [? [_ Hs]]]]]]].
  rewrite Hs in H. now injection H as <-.
Qed.

Lemma mapiM_returns {B : Type} (f : value -> nat -> result B) (p : value -> bool) :
  (forall a i, returns (f a i) = p a) ->
  forall (l : list value) (i : nat), returns (mapiM f i l) = forallb p l.
Proof.
  intros Hf. induction l as [| a l IH]; intros i; simpl; [reflexivity |].
  rewrite <- (Hf a i), <- (IH (S i)).
  destruct (f a i); [| reflexivity]. cbn [bind returns andb].
  now destruct (mapiM f (S i) l).
Qed.

Lemma mapiM_nth {B : Type} (f : value -> nat -> result B) (l : list value) :
  forall (i : nat) (l' : list B),
    mapiM f i l = Ok l' ->
    length l' = length l
    /\ forall j b, nth_error l' j = Some b ->
         exists a, nth_error l j = Some a /\ f a (i + j) = Ok b.
Proof.
  induction l as [| a l IH]; intros i l' H; simpl in H.
  - injection H as <-. split; [reflexivity |]. intros [| j] b Hj; discriminate.
  - apply bind_Ok_inv in H. destruct H as [b0 [Hb0 H]].
    apply bind_Ok_inv in H. destruct H as [bs [Hbs H]].
    injection H as <-. destruct (IH _ _ Hbs) as [Hlen Hnth].
    split; [simpl; now rewrite Hlen |].
    intros [| j] b Hj; simpl in Hj.
    + injection Hj as <-. exists a. rewrite Nat.add_0_r. auto.
    + destruct (Hnth j b Hj) as [a' [Ha' Hf]]. exists a'.
      split; [exact Ha' |]. now rewrite Nat.add_succ_r.
Qed.

(** X17: rendering fails on missing slides only.  For slides whose
    [background.image] converts to a string (it is used in a template
    literal), [renderSlide] returns exactly when the slide is not
    [null] or [undefined], and [Presentation] on an array of such
    slides returns exactly when none of them is [null] or [undefined];
    with [slides] left out it renders the empty deck. *)
Theorem Presentation_returns :
  forall slides : list value,
    (forall slide background image,
       In slide slides ->
       get slide "background" = Ok background ->
       get_opt background "image" = Ok image ->
       convertible image = true) ->
    (forall slide index,
       In slide slides ->
       returns (renderSlide slide index) = negb (nullish slide))
    /\ returns (Presentation.Presentation (VArr slides))
       = forallb (fun slide => negb (nullish slide)) slides
    /\ Presentation.Presentation VUndef = Ok [].
Proof.
  intros slides _. split; [intros; apply renderSlide_returns |].
  split; [| reflexivity].
  unfold Presentation.Presentation. cbn [default_arg].
  apply mapiM_returns. apply renderSlide_returns.
Qed.

Lemma Presentation_returns_witness :
  returns (Presentation.Presentation
             (VArr [ MoreExamples.backgroundSlide; Examples.untypedSlide ])) = true
  /\ returns (Presentation.Presentation
                (VArr [ MoreExamples.backgroundSlide; VNull ])) = false.
Proof.
  assert (H1 : forall slide background image,
             In slide [ MoreExamples.backgroundSlide; Examples.untypedSlide ] ->
             get slide "background" = Ok background ->
             get_opt background "image" = Ok image ->
             convertible image = true).
  { intros slide background image Hin Hb Hi. simpl in Hin.
    destruct Hin as [<- | [<- | []]]; injection Hb as <-;
      injection Hi as <-; reflexivity. }
  assert (H2 : forall slide background image,
             In slide [ MoreExamples.backgroundSlide; VNull ] ->
             get slide "background" = Ok background ->
             get_opt background "image" = Ok image ->
             convertible image = true).
  { intros slide background image Hin Hb Hi. simpl in Hin.
    destruct Hin as [<- | [<- | []]]; [| discriminate Hb].
    injection Hb as <-. injection Hi as <-. reflexivity. }
  split.
  - rewrite (proj1 (proj2 (Presentation_returns _ H1))). reflexivity.
  - rewrite (proj1 (proj2 (Presentation_returns _ H2))). reflexivity.
Defined.

(** X18: a rendered deck has one section per slide, in the order of the
    slides: the section at position [i] is [renderSlide] of the slide at
    position [i] and carries the React key [i], so the keys are
    [0, 1, ..., n-1] without gap or repetition. *)
Theorem Presentation_sections_in_order :
  forall (slides : list value) (sections : list SectionEl),
    Presentation.Presentation (VArr slides) = Ok sections ->
    length sections = length slides
    /\ forall i el, nth_error sections i = Some el ->
         key el = i
         /\ exists slide, nth_error slides i = Some slide
                          /\ renderSlide slide i = Ok el.
Proof.
  intros slides sections H. unfold Presentation.Presentation in H.
  cbn [default_arg] in H.
  destruct (mapiM_nth renderSlide slides 0 sections H) as [Hlen Hnth].
  split; [exact Hlen |]. intros i el Hi.
  destruct (Hnth i el Hi) as [slide [Hs Hr]]. cbn [Nat.add] in Hr.
  split; [eapply renderSlide_key; eauto | eauto].
Qed.

Lemma Presentation_sections_in_order_witness :
  exists sections,
    Presentation.Presentation (VArr MoreExamples.threeSlides) = Ok sections
    /\ length sections = 3
    /\ map key sections = [ 0; 1; 2 ].
Proof.
  eexists. split; [reflexivity |]. split.
  - exact (proj1 (Presentation_sections_in_order
                    MoreExamples.threeSlides _ eq_refl)).
  - reflexivity.
Defined.

(** X19: the text colour follows the background image, in the heading
    and in the body alike.  A rendered slide has a background image
    exactly when its [background.image] is truthy; then heading and body
    are white, otherwise both are grey.  The heading is only there for a
    truthy title. *)
Theorem renderSlide_text_follows_image :
  forall (slide : value) (index : nat) (el : SectionEl),
    renderSlide slide index = Ok el ->
    exists background image shown,
      get slide "background" = Ok background
      /\ get_opt background "image" = Ok image
      /\ get (style el) "backgroundImage" = Ok shown
      /\ truthy shown = truthy image
      /\ nth_error (bodyClasses el) 3
         = Some (if truthy image then "text-white prose-invert"
                 else "text-gray-700")
      /\ match heading el with
         | H2 classes title =>
             get slide "title" = Ok title /\ truthy title = true
             /\ nth_error classes 3
                = Some (if truthy image then "text-white drop-shadow-lg"
                        else "text-gray-900")
         | Raw title => get slide "title" = Ok title /\ truthy title = false
         end.
Proof.
  intros slide index el H. unfold renderSlide in H.
  apply bind_Ok_inv in H. destruct H as [type0 [_ H]].
  apply bind_Ok_inv in H. destruct H as [title [Htitle H]].
  apply bind_Ok_inv in H. destruct H as [content [_ H]].
  apply bind_Ok_inv in H. destruct H as [background [Hb H]].
  apply bind_Ok_inv in H. destruct H as [layout0 [_ H]].
  apply bind_Ok_inv in H. destruct H as [img [Himg H]].
  apply bind_Ok_inv in H. destruct H as [backgroundImage [Hbi H]].
  apply bind_Ok_inv in H. destruct H as [col [_ H]].
  apply bind_Ok_inv in H. destruct H as [backgroundColor [_ H]].
  apply bind_Ok_inv in H. destruct H as [h [Hh H]].
  apply bind_Ok_inv in H. destruct H as [bf [_ H]].
  rewrite Himg in H, Hh. cbn [bind] in H, Hh.
  injection H as <-.
  exists background, img, backgroundImage.
  split; [exact Hb |]. split; [exact Himg |]. split; [reflexivity |].
  cbn [bodyClasses heading nth_error]. split.
  - destruct (truthy img); [| now injection Hbi as <-].
    apply bind_Ok_inv in Hbi. destruct Hbi as [img' [_ Hbi]].
    now injection Hbi as <-.
  - split; [reflexivity |].
    destruct (truthy title) eqn:Tt.
    + apply bind_Ok_inv in Hh. destruct Hh as [hf [_ Hh]].
      injection Hh as <-. cbn [nth_error]. auto.
    + injection Hh as <-. auto.
Qed.

Lemma renderSlide_text_follows_image_witness :
  exists el,
    renderSlide MoreExamples.backgroundSlide 0 = Ok el
    /\ nth_error (bodyClasses el) 3 = Some "text-white prose-invert".
Proof.
  eexists. split; [reflexivity |].
  destruct (renderSlide_text_follows_image
              MoreExamples.backgroundSlide 0 _ eq_refl)
    as [background [image [shown [Hb [Hi [_ [_ [Hbody _]]]]]]]].
  injection Hb as <-. injection Hi as <-. exact Hbody.
Defined.

End DeckRendering.

(** ** Navigation between slides ([PresentationPreview]) *)

Section Navigation.

Import PresentationPreview.

Local Open Scope Z_scope.

Lemma handleNext_mod (slides : list value) (i : Z) :
  inRange slides i ->
  handleNext slides i = (i + 1) mod Z.of_nat (length slides).
Proof.
  unfold inRange, handleNext. intros Hi.
  destruct (i <? Z.of_nat (length slides) - 1) eqn:E.
  - apply Z.ltb_lt in E. symmetry. apply Z.mod_small. lia.
  - apply Z.ltb_ge in E.
    replace (i + 1) with (Z.of_nat (length slides)) by lia.
    symmetry. apply Z.mod_same. lia.
Qed.

Lemma handleNext_inRange (slides : list value) (i : Z) :
  inRange slides i -> inRange slides (handleNext slides i).
Proof.
  unfold inRange, handleNext. intros Hi.
  destruct (i <? Z.of_nat (length slides) - 1) eqn:E; [| lia].
  apply Z.ltb_lt in E. lia.
Qed.

Lemma iter_handleNext (slides : list value) (i : Z) (k : nat) :
  inRange slides i ->
  inRange slides (Nat.iter k (handleNext slides) i)
  /\ Nat.iter k (handleNext slides) i
     = (i + Z.of_nat k) mod Z.of_nat (length slides).
Proof.
  intros Hi. induction k as [| k [IHr IHe]].
  - split; [exact Hi |]. simpl. rewrite Z.add_0_r. symmetry.
    apply Z.mod_small. exact Hi.
  - rewrite Nat.iter_succ. split; [now apply handleNext_inRange |].
    rewrite handleNext_mod by exact IHr. rewrite IHe.
    rewrite Zplus_mod_idemp_l. f_equal. lia.
Qed.

(** X20: navigation stays on the deck and is reversible.  From an index
    that shows a slide, [handleNext] and [handlePrevious] lead to an
    index that shows a slide, wrapping around at the two ends; each
    undoes the other, and so do the arrow keys. *)
Theorem navigation_in_range_and_inverse :
  forall (slides : list value) (i : Z),
    inRange slides i ->
    inRange slides (handleNext slides i)
    /\ inRange slides (handlePrevious slides i)
    /\ handlePrevious slides (handleNext slides i) = i
    /\ handleNext slides (handlePrevious slides i) = i
    /\ handleKeyPress slides "ArrowLeft" (handleKeyPress slides "ArrowRight" i) = i
    /\ handleKeyPress slides "ArrowRight" (handleKeyPress slides "ArrowLeft" i) = i.
Proof.
  intros slides i Hi.
  assert (Hk : forall j, handleKeyPress slides "ArrowLeft" j = handlePrevious slides j)
    by reflexivity.
  assert (Hk' : forall j, handleKeyPress slides "ArrowRight" j = handleNext slides j)
    by reflexivity.
  rewrite !Hk, !Hk'. clear Hk Hk'.
  unfold inRange, handleNext, handlePrevious in *.
  destruct (i <? Z.of_nat (length slides) - 1) eqn:E1;
    destruct (i >? 0) eqn:E2;
    [apply Z.ltb_lt in E1 | apply Z.ltb_lt in E1
     | apply Z.ltb_ge in E1 | apply Z.ltb_ge in E1];
    [apply Z.gtb_lt in E2 | rewrite Z.gtb_ltb in E2; apply Z.ltb_ge in E2
     | apply Z.gtb_lt in E2 | rewrite Z.gtb_ltb in E2; apply Z.ltb_ge in E2].
  all: repeat split; try lia.
  all: repeat match goal with
         | |- context [?a >? ?b] =>
             let E := fresh in
             destruct (a >? b) eqn:E;
             [apply Z.gtb_lt in E | rewrite Z.gtb_ltb in E; apply Z.ltb_ge in E]
         | |- context [?a <? ?b] =>
             let E := fresh in
             destruct (a <? b) eqn:E;
             [apply Z.ltb_lt in E | apply Z.ltb_ge in E]
         end; lia.
Qed.

Lemma navigation_in_range_and_inverse_witness :
  inRange MoreExamples.threeSlides 2
  /\ handleNext MoreExamples.threeSlides 2 = 0
  /\ handlePrevious MoreExamples.threeSlides
       (handleNext MoreExamples.threeSlides 2) = 2.
Proof.
  assert (Hi : inRange MoreExamples.threeSlides 2)
    by (unfold inRange; simpl; lia).
  split; [exact Hi |]. split; [reflexivity |].
  exact (proj1 (proj2 (proj2
           (navigation_in_range_and_inverse MoreExamples.threeSlides 2 Hi)))).
Defined.

(** X21: going forward as many times as the deck has slides comes back
    to the slide one started from; after [k] steps from index [i] the
    index is [(i + k) mod n]. *)
Theorem handleNext_full_cycle :
  forall (slides : list value) (i : Z) (k : nat),
    inRange slides i ->
    Nat.iter k (handleNext slides) i
    = (i + Z.of_nat k) mod Z.of_nat (length slides)
    /\ Nat.iter (length slides) (handleNext slides) i = i.
Proof.
  intros slides i k Hi. split; [now apply iter_handleNext |].
  rewrite (proj2 (iter_handleNext slides i (length slides) Hi)).
  rewrite <- (Z.mul_1_l (Z.of_nat (length slides))) at 1.
  rewrite Z_mod_plus_full. apply Z.mod_small. exact Hi.
Qed.

Lemma handleNext_full_cycle_witness :
  inRange MoreExamples.threeSlides 1
  /\ Nat.iter 3 (handleNext MoreExamples.threeSlides) 1 = 1.
Proof.
  assert (Hi : inRange MoreExamples.threeSlides 1)
    by (unfold inRange; simpl; lia).
  split; [exact Hi |].
  exact (proj2 (handleNext_full_cycle MoreExamples.threeSlides 1 0 Hi)).
Defined.

(** X22: the empty deck is the one case where navigation leaves the
    deck by itself: from the initial index [0], [handlePrevious] gives
    an index that shows a slide exactly when the deck has a slide, and
    on a deck without slides it gives [-1]. *)
Theorem handlePrevious_empty_deck :
  forall slides : list value,
    (inRange slides (handlePrevious slides 0) <-> slides <> [])
    /\ (slides = [] -> handlePrevious slides 0 = -1)
    /\ handleNext slides 0 = (if (1 <? Z.of_nat (length slides)) then 1 else 0).
Proof.
  intros slides. unfold inRange, handlePrevious, handleNext. cbn [Z.gtb Z.compare].
  split; [| split].
  - destruct slides as [| s slides]; simpl length.
    + split; [simpl; lia | congruence].
    + split; [discriminate | lia].
  - intros ->. reflexivity.
  - destruct (0 <? Z.of_nat (length slides) - 1) eqn:E1;
      destruct (1 <? Z.of_nat (length slides)) eqn:E2; try reflexivity;
      [apply Z.ltb_lt in E1; apply Z.ltb_ge in E2
      | apply Z.ltb_ge in E1; apply Z.ltb_lt in E2]; lia.
Qed.

End Navigation.

(** ** Components that read the active theme *)

Section ThemeReaders.

Import Theme ThemeUtils ThemePreviewCard.

Lemma get_opt2_total (v : value) (a b : string) :
  exists x, get_opt2 v a b = Ok x.
Proof.
  unfold get_opt2. destruct (get_opt_total v a) as [x [-> _]]. cbn [bind].
  destruct (get_opt_total x b) as [y [-> _]]. eauto.
Qed.

Lemma mapM_pure {A B : Type} (f : A -> result B) (g : A -> B) (l : list A) :
  (forall a, f a = Ok (g a)) -> mapM f l = Ok (map g l).
Proof.
  intros H. induction l as [| a l IH]; simpl; [reflexivity |].
  now rewrite H, IH.
Qed.

Lemma or_else_truthy (a b : value) :
  truthy b = true -> truthy (or_else a b) = true.
Proof. unfold or_else. now destruct (truthy a) eqn:E. Qed.

Lemma ThemePreview_card :
  forall theme name : value,
    exists card,
      ThemePreview theme name = Ok card
      /\ truthy (backgroundPreview card) = true
      /\ truthy (titleFontLabel card) = true
      /\ truthy (contentFontLabel card) = true
      /\ (truthy name = true -> truthy (cardName card) = true)
      /\ match swatches card with
         | SwatchList l =>
             exists colors,
               get theme "colors" = Ok colors
               /\ map swatchTitle l
                  = filter shown (map fst (own_enumerable colors))
         | NoSwatches v => truthy v = false
         end.
Proof.
  intros theme name. unfold ThemePreview.
  destruct (get_opt_total theme "name") as [themeName [-> _]].
  destruct (get_opt_total theme "colors") as [colors [-> Hc]].
  cbn [bind].
  assert (Hsw : exists sw,
    (if truthy colors then
       colors' <- get theme "colors" ;;
       es <- entries colors' ;;
       l <- mapM (fun e =>
                    id <- get theme "id" ;;
                    Ok (mkSwatch (to_string id ++ "-color-" ++ fst e)%string
                                 (snd e) (fst e)))
                 (filter (fun e => shown (fst e)) es) ;;
       Ok (SwatchList l)
     else Ok (NoSwatches colors)) = Ok sw
    /\ match sw with
       | SwatchList l =>
           exists colors,
             get theme "colors" = Ok colors
             /\ map swatchTitle l
                = filter shown (map fst (own_enumerable colors))
       | NoSwatches v => truthy v = false
       end).
  { destruct (truthy colors) eqn:Tc; [| eauto].
    specialize (Hc eq_refl). rewrite Hc. cbn [bind].
    assert (Hn : nullish theme = false)
      by (eapply get_returns_not_nullish; eauto).
    destruct (get_not_nullish theme "id" Hn) as [id Hid].
    assert (He : entries colors = Ok (own_enumerable colors)).
    { destruct colors; try discriminate; reflexivity. }
    rewrite He. cbn [bind]. rewrite Hid.
    rewrite (mapM_pure _
               (fun e => mkSwatch (to_string id ++ "-color-" ++ fst e)%string
                                  (snd e) (fst e)))
      by reflexivity.
    cbn [bind]. eexists. split; [reflexivity |].
    exists colors. split; [reflexivity |].
    rewrite map_map. cbn [swatchTitle].
    generalize (own_enumerable colors). intros l.
    induction l as [| e l IH]; simpl; [reflexivity |].
    destruct (shown (fst e)); simpl; now rewrite IH. }
  destruct Hsw as [sw [-> Hsw]]. cbn [bind].
  destruct (get_opt2_total theme "gradients" "primary") as [gradient ->].
  destruct (get_opt2_total theme "colors" "background") as [bg ->].
  destruct (get_opt2_total theme "colors" "background_end") as [bgEnd ->].
  destruct (get_opt2_total theme "fonts" "title") as [titleFont ->].
  destruct (get_opt2_total theme "fonts" "content") as [contentFont ->].
  cbn [bind].
  destruct (truthy gradient) eqn:Tg; cbn [bind]; eexists;
    (split; [reflexivity |]); cbn [backgroundPreview titleFontLabel
      contentFontLabel cardName swatches];
    repeat split; try exact Tg; try exact Hsw;
    try (apply or_else_truthy; reflexivity);
    try (intros Hname; now apply or_else_truthy).
Qed.

(** X23: a theme preview card can be built from any theme whose [id]
    and background colours convert to a string (they are concatenated
    into the swatch keys and the background preview): for every such
    [theme] and every [name], also for [undefined], [null] and themes
    without colours or fonts, [ThemePreview] reads without an
    exception.  The background preview and the two font labels are
    never empty, the card is named when [name] is, and the swatches
    shown are those of the own colour keys that contain neither [_end]
    nor [background]. *)
Theorem ThemePreview_total :
  forall theme name : value,
    (forall id, get theme "id" = Ok id -> convertible id = true) ->
    (forall role colour,
       In role [ "background"; "background_end" ] ->
       get_opt2 theme "colors" role = Ok colour -> convertible colour = true) ->
    exists card,
      ThemePreview theme name = Ok card
      /\ truthy (backgroundPreview card) = true
      /\ truthy (titleFontLabel card) = true
      /\ truthy (contentFontLabel card) = true
      /\ (truthy name = true -> truthy (cardName card) = true)
      /\ match swatches card with
         | SwatchList l =>
             exists colors,
               get theme "colors" = Ok colors
               /\ forall key,
                    In key (map swatchTitle l)
                    <-> In key (map fst (own_enumerable colors))
                        /\ shown key = true
         | NoSwatches v => truthy v = false
         end.
Proof.
  intros theme name _ _.
  destruct (ThemePreview_card theme name)
    as [card [H1 [H2 [H3 [H4 [H5 H6]]]]]].
  exists card. repeat (split; [assumption |]).
  destruct (swatches card) as [v | l]; [exact H6 |].
  destruct H6 as [colors [Hc Hm]]. exists colors. split; [exact Hc |].
  intros key. rewrite Hm. apply filter_In.
Qed.

Lemma ThemePreview_total_witness :
  exists card,
    ThemePreview Theme.corporate_blue VUndef = Ok card
    /\ cardName card = VStr "Corporate Blue"
    /\ truthy (backgroundPreview card) = true.
Proof.
  destruct (ThemePreview_total Theme.corporate_blue VUndef)
    as [card [H1 [H2 _]]].
  - intros id H. injection H as <-. reflexivity.
  - intros role colour Hin H. simpl in Hin.
    destruct Hin as [<- | [<- | []]]; injection H as <-; reflexivity.
  - exists card. split; [exact H1 |]. split; [| exact H2].
    injection H1 as <-. reflexivity.
Defined.

Lemma render_returns (theme currentProject : value) :
  returns (App.render theme currentProject)
  = has_group theme "fonts"
    && (truthy currentProject || has_group theme "colors").
Proof.
  unfold App.render.
  destruct (get_opt2_total theme "colors" "background") as [bg ->].
  destruct (get_opt2_total theme "colors" "text") as [fg ->].
  destruct (get_opt2_total theme "gradients" "primary") as [gradient ->].
  destruct (get_opt2_total theme "colors" "primary") as [p ->].
  destruct (get_opt2_total theme "colors" "secondary") as [s ->].
  cbn [bind].
  rewrite <- (has_group_get2 theme "fonts" "heading").
  rewrite <- (has_group_get2 theme "colors" "secondary").
  destruct (truthy gradient); cbn [bind];
    (destruct (get2 theme "fonts" "heading"); [| reflexivity]);
    cbn [bind returns andb];
    (destruct (truthy currentProject); [reflexivity |]);
    (destruct (get2 theme "colors" "secondary"); reflexivity).
Qed.

(** X24: what the render of [App] reads from the active theme.  For
    primary and secondary colours that convert to a string (the header
    gradient is a template literal over them), these reads return
    exactly when the theme has a [fonts] group and, as long as no
    project is shown, a [colors] group.  The page background, the text
    colour and the header gradient are read with guards and fall back
    to fixed colours; the heading fonts and the placeholder colour are
    not. *)
Theorem App_render_returns :
  forall theme currentProject : value,
    (forall role colour,
       In role [ "primary"; "secondary" ] ->
       get_opt2 theme "colors" role = Ok colour -> convertible colour = true) ->
    returns (App.render theme currentProject)
    = has_group theme "fonts"
      && (truthy currentProject || has_group theme "colors").
Proof. intros theme currentProject _. apply render_returns. Qed.

Lemma App_render_returns_witness :
  returns (App.render Theme.corporate_blue VNull) = true
  /\ returns (App.render MoreExamples.coloursOnly VNull) = false.
Proof.
  split.
  - rewrite (App_render_returns Theme.corporate_blue VNull).
    + reflexivity.
    + intros role colour Hin H. simpl in Hin.
      destruct Hin as [<- | [<- | []]]; injection H as <-; reflexivity.
  - rewrite (App_render_returns MoreExamples.coloursOnly VNull).
    + reflexivity.
    + intros role colour Hin H. simpl in Hin.
      destruct Hin as [<- | [<- | []]]; injection H as <-; reflexivity.
Defined.



(** X26: a custom theme can take the page down.  [setTheme] installs
    every non-null object; when that object has no [fonts] group, it is
    the active theme and the render of [App] throws on it, with or
    without a project. *)
Theorem setTheme_without_fonts_breaks_App :
  forall (themeConfig : value) (st : ThemeState) (currentProject : value),
    typeof themeConfig = "object" -> themeConfig <> VNull ->
    has_group themeConfig "fonts" = false ->
    ThemeContext.theme (ThemeContext.setTheme themeConfig st) = Ok themeConfig
    /\ throws (App.render themeConfig currentProject) = true.
Proof.
  intros cfg st project Hty Hnn Hf. split.
  - unfold ThemeContext.setTheme. rewrite Hty.
    destruct cfg; try discriminate; try contradiction; reflexivity.
  - unfold throws. now rewrite render_returns, Hf.
Qed.

Lemma setTheme_without_fonts_breaks_App_witness :
  ThemeContext.theme
    (ThemeContext.setTheme MoreExamples.coloursOnly ThemeContext.initial)
  = Ok MoreExamples.coloursOnly
  /\ throws (App.render MoreExamples.coloursOnly VNull) = true.
Proof.
  exact (setTheme_without_fonts_breaks_App
           MoreExamples.coloursOnly ThemeContext.initial VNull eq_refl
           (fun H => match H with eq_refl => I end) eq_refl).
Defined.

End ThemeReaders.

(** ** The presentation theme provider and its slide components *)

Section PresentationSlides.

Import PresentationThemeContext Slides.

Lemma setTheme_not_inherited (name current : value) :
  is_inherited_name (to_string name) = false ->
  setTheme name current
  = Some (Ok (match assoc (to_string name) (own_enumerable themes) with
              | Some entry => entry
              | None => current
              end)).
Proof.
  intros Hi. unfold setTheme, get_at, themes. rewrite get_VObj.
  cbn [assoc own_enumerable].
  repeat (destruct (_ =? to_string name); [reflexivity |]).
  rewrite inherited_unknown by exact Hi. reflexivity.
Qed.

Lemma setTheme_stays_registered (name current : value) :
  is_inherited_name (to_string name) = false ->
  In current [ modern; elegant; vibrant ] ->
  exists next,
    setTheme name current = Some (Ok next)
    /\ In next [ modern; elegant; vibrant ].
Proof.
  intros Hi Hin. rewrite (setTheme_not_inherited name current Hi).
  eexists. split; [reflexivity |].
  unfold themes. cbn [assoc own_enumerable].
  destruct ("modern" =? to_string name); [now left |].
  destruct ("elegant" =? to_string name); [right; now left |].
  destruct ("vibrant" =? to_string name); [right; right; now left |].
  exact Hin.
Qed.

Lemma slides_render_on_registered (theme : value) :
  In theme [ modern; elegant; vibrant ] ->
  (forall title subtitle background,
     returns (TitleSlide theme title subtitle background) = true)
  /\ (forall title content layout background,
        returns (ContentSlide theme title content layout background) = true).
Proof.
  intros Hin.
  assert (Hc : forall title content layout background t,
             In t [ modern; elegant; vibrant ] ->
             returns (ContentSlide t title content layout background) = true).
  { intros title content layout background t Ht.
    unfold ContentSlide, get_at, layouts. rewrite get_VObj.
    destruct Ht as [<- | [<- | [<- | []]]];
      destruct (truthy background); reflexivity. }
  split.
  - intros title subtitle background.
    destruct Hin as [<- | [<- | [<- | []]]]; unfold TitleSlide;
      destruct (truthy background); destruct (truthy subtitle); reflexivity.
  - intros. now apply Hc.
Qed.

(** X27: the presentation theme provider keeps a theme the slide
    components can render.  [setTheme] with a name that converts to a
    string and is not inherited selects that entry of [themes] or, for
    an unknown name, keeps the current theme; so after any run of such
    calls from the initial theme the current theme is one of [modern],
    [elegant] and [vibrant].  On it [TitleSlide] returns for all its
    props, and [ContentSlide] for all props with a [layout] that
    converts to a string. *)
Theorem setTheme_keeps_slides_rendering :
  forall names : list value,
    Forall (fun name => convertible name = true
                        /\ is_inherited_name (to_string name) = false) names ->
    exists theme,
      afterSetThemes names modern = Some (Ok theme)
      /\ In theme [ modern; elegant; vibrant ]
      /\ (forall title subtitle background,
            returns (TitleSlide theme title subtitle background) = true)
      /\ (forall title content layout background,
            convertible layout = true ->
            returns (ContentSlide theme title content layout background) = true).
Proof.
  intros names Hnames.
  assert (Hrun : forall current,
             In current [ modern; elegant; vibrant ] ->
             exists theme,
               afterSetThemes names current = Some (Ok theme)
               /\ In theme [ modern; elegant; vibrant ]).
  { induction Hnames as [| name names [_ Hname] _ IH]; intros current Hin.
    - exists current. auto.
    - destruct (setTheme_stays_registered name current Hname Hin)
        as [next [Hnext Hin']].
      cbn [afterSetThemes]. rewrite Hnext. now apply IH. }
  destruct (Hrun modern (or_introl eq_refl)) as [theme [Hrun' Hin]].
  exists theme. split; [exact Hrun' |]. split; [exact Hin |].
  destruct (slides_render_on_registered theme Hin) as [Ht Hc].
  split; [exact Ht |]. intros title content layout background _. apply Hc.
Qed.

Lemma setTheme_keeps_slides_rendering_witness :
  exists theme,
    afterSetThemes [ VStr "vibrant"; VStr "neon"; VStr "elegant"; VUndef ] modern
    = Some (Ok theme)
    /\ returns (TitleSlide theme (VStr "Launch") VUndef VUndef) = true.
Proof.
  assert (Hnames : Forall (fun name => convertible name = true
                             /\ is_inherited_name (to_string name) = false)
                     [ VStr "vibrant"; VStr "neon"; VStr "elegant"; VUndef ])
    by (repeat constructor).
  destruct (setTheme_keeps_slides_rendering _ Hnames)
    as [theme [Hrun [_ [Htitle _]]]].
  exists theme. split; [exact Hrun | apply Htitle].
Defined.

(** X28: [setTheme] of the presentation theme provider, for a name that
    converts to a string and is not inherited: a key of [themes] selects
    that entry, every other name leaves the current theme as it is,
    whatever the current theme is. *)
Theorem PresentationThemeContext_setTheme_spec :
  forall (name current : value),
    convertible name = true ->
    is_inherited_name (to_string name) = false ->
    setTheme name current
    = Some (Ok (match assoc (to_string name) (own_enumerable themes) with
                | Some entry => entry
                | None => current
                end)).
Proof. intros name current _. apply setTheme_not_inherited. Qed.

Lemma PresentationThemeContext_setTheme_spec_witness :
  setTheme (VStr "elegant") modern = Some (Ok elegant)
  /\ setTheme (VStr "neon") modern = Some (Ok modern).
Proof.
  split.
  - exact (PresentationThemeContext_setTheme_spec
             (VStr "elegant") modern eq_refl eq_refl).
  - exact (PresentationThemeContext_setTheme_spec
             (VStr "neon") modern eq_refl eq_refl).
Defined.

End PresentationSlides.
